(** * The OpenBSD clock driver of chronyd (sys_openbsd.c)

    A shallow embedding of the driver: frequency steering through
    adjfreq(2), hourly synchronisation of the real-time clock, the reset of
    the adjtime(2) residue, the clock_settime() override and the pledge(2)
    system-call filter.

    C [double] is IEEE-754 binary64, taken from the standard library's
    [SpecFloat] (precision 53, exponent bound 1024, round to nearest even);
    [int64_t] is a [Z] with its range written out.  Everything the driver
    calls but does not define (privops, scheduler, configuration, libc) is
    an interface, and every call that can change the outside is recorded in
    a trace. *)

From Stdlib Require Import ZArith Bool List Ascii String Lia.
From Stdlib Require Import QArith Qabs Qpower Lqa.
From Stdlib Require Import SpecFloat.
Import ListNotations.

Local Open Scope Z_scope.

(* ================================================================== *)
(** ** C arithmetic *)

Module C.

(** [double]: binary64. *)
Definition prec : Z := 53.
Definition emax : Z := 1024.
Definition double : Type := spec_float.

Definition INT64_MIN : Z := - 2 ^ 63.
Definition INT64_MAX : Z := 2 ^ 63 - 1.

Definition in_int64 (z : Z) : bool := (INT64_MIN <=? z) && (z <=? INT64_MAX).

(** Integer to [double]: the nearest binary64, ties to even. *)
Definition int64_to_double (z : Z) : double :=
  binary_normalize prec emax z 0 false.

(** Magnitude of a finite double cut to an integer. *)
Definition trunc_magnitude (m : positive) (e : Z) : Z :=
  match e with
  | Z0 => Zpos m
  | Zpos _ => Zpos m * 2 ^ e
  | Zneg p => Zpos m / 2 ^ Zpos p
  end.

(** [double] to [int64_t]: the fractional part is discarded; the
    conversion is undefined ([None]) for NaN, the infinities and values
    whose integral part does not fit. *)
Definition double_to_int64 (x : double) : option Z :=
  match x with
  | S754_zero _ => Some 0
  | S754_finite s m e =>
      let v := cond_Zopp s (trunc_magnitude m e) in
      if in_int64 v then Some v else None
  | S754_infinity _ | S754_nan => None
  end.

(** Unary minus on [int64_t]; overflow ([- INT64_MIN]) is undefined. *)
Definition int64_neg (z : Z) : option Z :=
  if z =? INT64_MIN then None else Some (- z).

Definition dmul : double -> double -> double := SFmul prec emax.
Definition ddiv : double -> double -> double := SFdiv prec emax.
Definition dadd : double -> double -> double := SFadd prec emax.
Definition dsub : double -> double -> double := SFsub prec emax.
Definition dneg : double -> double := SFopp.
Definition fabs : double -> double := SFabs.
(** [a >= b] on doubles: false as soon as one side is a NaN. *)
Definition dge (a b : double) : bool := SFleb b a.
Definition dle (a b : double) : bool := SFleb a b.

(** A double is a real binary64 datum when its mantissa and exponent are
    in canonical form. *)
Definition is_binary64 (x : double) : bool := valid_binary prec emax x.

(** isfinite() of <math.h>: a zero or a finite number, neither an
    infinity nor a NaN. *)
Definition is_finite (x : double) : bool :=
  match x with
  | S754_zero _ | S754_finite _ _ _ => true
  | S754_infinity _ | S754_nan => false
  end.

(** The rational number a double stands for (0 for NaN and infinities,
    which the theorems below exclude). *)
Definition pow2 (e : Z) : Q := Qpower 2 e.

Definition signedQ (s : bool) (v : Q) : Q := if s then (- v)%Q else v.

Definition to_Q (x : double) : Q :=
  match x with
  | S754_finite s m e => signedQ s (inject_Z (Zpos m) * pow2 e)%Q
  | _ => 0%Q
  end.

End C.

Import C.

(* ================================================================== *)
(** ** Data of the driver and of its collaborators *)

(** struct timespec, struct timeval *)
Record timespec : Type := { tv_sec : Z; tv_nsec : Z }.
Record timeval : Type := { tvl_sec : Z; tv_usec : Z }.

(** LOG_Severity (logging.h) *)
Inductive LOG_Severity : Type :=
| LOGS_DEBUG | LOGS_INFO | LOGS_WARN | LOGS_ERR | LOGS_FATAL.

(** SYS_ProcessContext (sys.h) *)
Inductive SYS_ProcessContext : Type :=
| SYS_MAIN_PROCESS | SYS_PRIVOPS_HELPER | SYS_NTSKE_HELPER.

Definition SYS_ProcessContext_eqb (a b : SYS_ProcessContext) : bool :=
  match a, b with
  | SYS_MAIN_PROCESS, SYS_MAIN_PROCESS
  | SYS_PRIVOPS_HELPER, SYS_PRIVOPS_HELPER
  | SYS_NTSKE_HELPER, SYS_NTSKE_HELPER => true
  | _, _ => false
  end.

(** CLOCK_REALTIME of <time.h> is 0 on OpenBSD. *)
Definition CLOCK_REALTIME : Z := 0.

(** Maximum frequency offset (in ppm) *)
Definition MAX_FREQ : double := int64_to_double 100000.

(** RTC synchronisation - once an hour: [(60 * 60.0)], the product of
    the converted int and the double *)
Definition RTC_SYNC_INTERVAL : double :=
  dmul (int64_to_double 60) (int64_to_double 60).

(** [(1000LL << 32)], the number of adjfreq(2) units in one ppm, as the
    integer it is and as the double both conversions use. *)
Definition FREQ_SCALE : Z := Z.shiftl 1000 32.
Definition freq_scale : double := int64_to_double FREQ_SCALE.

(** What the driver does to the outside, in program order. *)
Inductive event : Type :=
| Log (severity : LOG_Severity) (message : string)
| AdjustFreq (freq : option Z) (want_old : bool) (ret : Z) (oldfreq : Z)
| AdjustTime (delta : option timeval) (ret : Z)
| SetTime (clock : Z) (ts : timespec) (ret : Z)
| DispersionNotify (dispersion : double)
| SetTimeOfDay (tv : timeval) (ret : Z)
| Pledge (promises : string) (ret : Z).

(** The functions the driver calls and does not define.  [W] is the state
    of everything outside the file: kernel, configuration, scheduler.  A
    pointer argument that may be NULL is an [option] (input) or a [bool]
    (output wanted). *)
Class Platform (W : Type) : Type := {
  (* privops.h *)
  PRV_AdjustFreq : option Z -> bool -> W -> Z * Z * W;
  PRV_AdjustTime : option timeval -> W -> Z * W;
  PRV_SetTime : Z -> timespec -> W -> Z * W;
  (* local.h *)
  LCL_ReadRawTime : W -> timespec * W;
  lcl_InvokeDispersionNotifyHandlers : double -> W -> W;
  (* sched.h *)
  SCH_GetLastEventTime : W -> timespec;
  (* conf.h *)
  CNF_GetRtcSync : W -> Z;
  CNF_GetNtsServerCertAndKeyFiles : W -> Z;
  CNF_GetNtsServerProcesses : W -> Z;
  (* util.h *)
  UTI_DiffTimespecsToDouble : timespec -> timespec -> double;
  UTI_TimespecToTimeval : timespec -> timeval;
  (* libc *)
  geteuid : W -> Z;
  pledge : string -> W -> Z * W;
  settimeofday : timeval -> W -> Z * W
}.

(** The file's own static data, the trace and the outside. *)
Record state (W : Type) : Type := {
  last_rtc_sync : timespec;
  trace : list event;
  world : W
}.
Arguments last_rtc_sync {W} _.
Arguments trace {W} _.
Arguments world {W} _.
Arguments Build_state {W} _ _ _.

(** How a call into the driver ends: it returns, the process exits
    (LOG_FATAL), or C leaves the behaviour undefined. *)
Inductive outcome (W A : Type) : Type :=
| Done (a : A) (s : state W)
| Exited (s : state W)
| Undefined.
Arguments Done {W A} _ _.
Arguments Exited {W A} _.
Arguments Undefined {W A}.

Definition M (W A : Type) : Type := state W -> outcome W A.

Definition ret {W A} (a : A) : M W A := fun s => Done a s.

Definition bind {W A B} (c : M W A) (k : A -> M W B) : M W B :=
  fun s =>
    match c s with
    | Done a s' => k a s'
    | Exited s' => Exited s'
    | Undefined => Undefined
    end.

Declare Scope drv_scope.
Delimit Scope drv_scope with drv.
Notation "x <- c ;; k" := (bind c (fun x => k))
  (at level 100, c at next level, right associativity) : drv_scope.
Notation "c ;; k" := (bind c (fun _ => k))
  (at level 100, right associativity) : drv_scope.
Local Open Scope drv_scope.

Section Driver.

Context {W : Type} {P : Platform W}.

Definition emit (e : event) : M W unit :=
  fun s => Done tt (Build_state (last_rtc_sync s) (trace s ++ [e]) (world s)).

(** Read something from the outside without changing it. *)
Definition ask {A} (f : W -> A) : M W A :=
  fun s => Done (f (world s)) s.

(** Run a collaborator that may change the outside. *)
Definition call {A} (f : W -> A * W) : M W A :=
  fun s =>
    let '(a, w) := f (world s) in
    Done a (Build_state (last_rtc_sync s) (trace s) w).

Definition undefined {A} : M W A := fun _ => Undefined.

Definition get_last_rtc_sync : M W timespec :=
  fun s => Done (last_rtc_sync s) s.

Definition set_last_rtc_sync (ts : timespec) : M W unit :=
  fun s => Done tt (Build_state ts (trace s) (world s)).

(** LOG(), DEBUG_LOG() and LOG_FATAL() of logging.h; the last one does
    not return. *)
Definition LOG (sev : LOG_Severity) (msg : string) : M W unit :=
  emit (Log sev msg).

Definition DEBUG_LOG (msg : string) : M W unit := LOG LOGS_DEBUG msg.

Definition LOG_FATAL {A} (msg : string) : M W A :=
  fun s =>
    Exited (Build_state (last_rtc_sync s)
                        (trace s ++ [Log LOGS_FATAL msg]) (world s)).

(** The calls whose effect the trace keeps. *)
Definition do_AdjustFreq (freq : option Z) (want_old : bool) : M W (Z * Z) :=
  r <- call (PRV_AdjustFreq freq want_old) ;;
  emit (AdjustFreq freq want_old (fst r) (snd r)) ;;
  ret r.

Definition do_AdjustTime (delta : option timeval) : M W Z :=
  r <- call (PRV_AdjustTime delta) ;;
  emit (AdjustTime delta r) ;;
  ret r.

Definition do_SetTime (clock : Z) (ts : timespec) : M W Z :=
  r <- call (PRV_SetTime clock ts) ;;
  emit (SetTime clock ts r) ;;
  ret r.

Definition do_DispersionNotify (d : double) : M W unit :=
  call (fun w => (tt, lcl_InvokeDispersionNotifyHandlers d w)) ;;
  emit (DispersionNotify d).

Definition do_settimeofday (tv : timeval) : M W Z :=
  r <- call (settimeofday tv) ;;
  emit (SetTimeOfDay tv r) ;;
  ret r.

Definition do_pledge (promises : string) : M W Z :=
  r <- call (pledge promises) ;;
  emit (Pledge promises r) ;;
  ret r.

(* ---------------------------------------------------------------- *)
(** ** The driver *)

(** [(double)-freq / (1000LL << 32)] *)
Definition freq_to_ppm (freq : Z) : option double :=
  match int64_neg freq with
  | Some n => Some (ddiv (int64_to_double n) freq_scale)
  | None => None
  end.

(** [-freq_ppm * (1000LL << 32)], stored in an int64_t *)
Definition ppm_to_freq (freq_ppm : double) : option Z :=
  double_to_int64 (dmul (dneg freq_ppm) freq_scale).

Definition read_frequency : M W double :=
  r <- do_AdjustFreq None true ;;
  (if negb (fst r =? 0) then LOG_FATAL "adjfreq() failed" else ret tt) ;;
  match freq_to_ppm (snd r) with
  | Some ppm => ret ppm
  | None => undefined
  end.

Definition set_frequency (freq_ppm : double) : M W double :=
  match ppm_to_freq freq_ppm with
  | None => undefined
  | Some freq =>
      r <- do_AdjustFreq (Some freq) false ;;
      (if negb (fst r =? 0) then LOG_FATAL "adjfreq() failed" else ret tt) ;;
      read_frequency
  end.

Definition synchronise_rtc : M W unit :=
  ts <- call LCL_ReadRawTime ;;
  r <- do_SetTime CLOCK_REALTIME ts ;;
  if r <? 0 then
    DEBUG_LOG "clock_settime() failed"
  else
    new_ts <- call LCL_ReadRawTime ;;
    let err := UTI_DiffTimespecsToDouble new_ts ts in
    do_DispersionNotify (fabs err).

Definition set_sync_status (synchronised : Z) (est_error max_error : double)
  : M W unit :=
  (* [!synchronised || !CNF_GetRtcSync()]: the second operand is only
     evaluated when the first is false *)
  stop <- (if synchronised =? 0 then ret true
           else rtcsync <- ask CNF_GetRtcSync ;; ret (rtcsync =? 0)) ;;
  if (stop : bool) then
    ret tt
  else
    now <- ask SCH_GetLastEventTime ;;
    last <- get_last_rtc_sync ;;
    let rtc_sync_elapsed := UTI_DiffTimespecsToDouble now last in
    if dge (fabs rtc_sync_elapsed) RTC_SYNC_INTERVAL then
      synchronise_rtc ;;
      set_last_rtc_sync now ;;
      DEBUG_LOG "rtc synchronised"
    else
      ret tt.

(** [memset(&delta, 0, sizeof (delta))] *)
Definition zero_timeval : timeval := {| tvl_sec := 0; tv_usec := 0 |}.

Definition reset_adjtime_offset : M W unit :=
  r <- do_AdjustTime (Some zero_timeval) ;;
  if negb (r =? 0) then LOG_FATAL "adjtime() failed" else ret tt.

(** The override of clock_settime(): settimeofday() is pledged,
    clock_settime() is not. *)
Definition clock_settime (clock : Z) (now : timespec) : M W Z :=
  if negb (clock =? CLOCK_REALTIME) then
    ret (-1)
  else
    do_settimeofday (UTI_TimespecToTimeval now).

(** pledge() and the check of its result, as each branch writes it. *)
Definition pledge_or_die (promises : string) : M W unit :=
  r <- do_pledge promises ;;
  if r <? 0 then LOG_FATAL "pledge() failed" else ret tt.

Definition SYS_OpenBSD_EnableSystemCallFilter
  (level : Z) (context : SYS_ProcessContext) : M W unit :=
  (if negb (level =? 1) && SYS_ProcessContext_eqb context SYS_MAIN_PROCESS
   then LOG_FATAL "Unsupported filter level" else ret tt) ;;
  (match context with
   | SYS_MAIN_PROCESS =>
       pairs <- ask CNF_GetNtsServerCertAndKeyFiles ;;
       procs <- ask CNF_GetNtsServerProcesses ;;
       euid <- ask geteuid ;;
       if (0 <? pairs) && (0 <? procs) then
         if euid =? 0 then
           pledge_or_die "stdio rpath wpath cpath inet unix dns sendfd settime"
         else
           pledge_or_die "stdio rpath wpath cpath inet unix dns sendfd"
       else
         if euid =? 0 then
           pledge_or_die "stdio rpath wpath cpath inet unix dns settime"
         else
           pledge_or_die "stdio rpath wpath cpath inet unix dns"
   | SYS_PRIVOPS_HELPER => pledge_or_die "stdio settime"
   | SYS_NTSKE_HELPER => pledge_or_die "stdio recvfd"
   end) ;;
  LOG (match context with SYS_MAIN_PROCESS => LOGS_INFO | _ => LOGS_DEBUG end)
      "Loaded pledge filter".

End Driver.

(* ================================================================== *)
(** ** Observations on traces and states *)

Definition is_SetTime (e : event) : bool :=
  match e with SetTime _ _ _ => true | _ => false end.

(** Number of attempts to set the hardware clock recorded in a trace. *)
Definition rtc_commits (tr : list event) : nat :=
  List.length (filter is_SetTime tr).

(** The state a call leaves behind, whichever way it ends. *)
Definition final_state {W A} (c : M W A) (s : state W) : state W :=
  match c s with
  | Done _ s' => s'
  | Exited s' => s'
  | Undefined => s
  end.

(** One turn of the scheduler loop as the driver sees it: the outside
    moves on (time passes, the kernel changes its mind about failing),
    then the status callback runs. *)
Record report (W : Type) : Type := {
  evolve : W -> W;
  synchronised : Z;
  est_error : double;
  max_error : double
}.
Arguments evolve {W} _ _.
Arguments synchronised {W} _.
Arguments est_error {W} _.
Arguments max_error {W} _.

Section Reports.

Context {W : Type} {P : Platform W}.

Definition arrive (r : report W) (s : state W) : state W :=
  Build_state (last_rtc_sync s) (trace s) (evolve r (world s)).

Definition deliver (r : report W) (s : state W) : state W :=
  final_state
    (set_sync_status (synchronised r) (est_error r) (max_error r))
    (arrive r s).

Definition deliver_all (rs : list (report W)) (s : state W) : state W :=
  fold_left (fun acc r => deliver r acc) rs s.

(** Scheduler time at which a report is handled. *)
Definition report_time (r : report W) (s : state W) : timespec :=
  SCH_GetLastEventTime (evolve r (world s)).

(** The elapsed time the callback computes in a state. *)
Definition rtc_sync_elapsed (s : state W) : double :=
  UTI_DiffTimespecsToDouble (SCH_GetLastEventTime (world s)) (last_rtc_sync s).

(** The callback passes both gates: synchronised and rtcsync configured. *)
Definition gate_open (sync : Z) (s : state W) : bool :=
  negb (sync =? 0) && negb (CNF_GetRtcSync (world s) =? 0).

End Reports.

(* ================================================================== *)
(** ** A concrete platform

    A small machine that answers every call of the interface.  It is what
    the examples run on, and it carries the kernel behaviour the driver
    relies on and does not implement. *)

Module Sim.

Record machine : Type := {
  (* configuration *)
  rtcsync : Z;
  nts_pairs : Z;
  nts_processes : Z;
  (* process and scheduler *)
  euid : Z;
  sched_time : timespec;
  (* the raw clock: readings still to come, then [raw_rest] forever *)
  raw_readings : list timespec;
  raw_rest : timespec;
  (* kernel: frequency, outstanding adjtime delta, time of day, promises *)
  kfreq : Z;
  kdelta : timeval;
  ktime : timeval;
  kpromises : option string;
  (* what the next system call of each kind returns *)
  adjfreq_ret : Z;
  adjtime_ret : Z;
  settime_ret : Z;
  pledge_ret : Z
}.

(** Modelled from the spec: UTI_TimespecToTimeval of util.c, which is not
    among the sources; "converts the timespec to a timeval" (seconds kept,
    nanoseconds cut to microseconds). *)
Definition timespec_to_timeval (ts : timespec) : timeval :=
  {| tvl_sec := tv_sec ts; tv_usec := tv_nsec ts / 1000 |}.

(** Modelled from the spec: UTI_DiffTimespecsToDouble of util.c, which is
    not among the sources; the "elapsed time" [a - b] in seconds, computed
    in doubles from the second and nanosecond fields. *)
Definition diff_timespecs_to_double (a b : timespec) : double :=
  dadd (dsub (int64_to_double (tv_sec a)) (int64_to_double (tv_sec b)))
       (dmul (ddiv (int64_to_double 1) (int64_to_double 1000000000))
             (int64_to_double (tv_nsec a - tv_nsec b))).

(** Modelled from the spec: PRV_AdjustFreq of privops.c, which is not
    among the sources; "adjust_frequency(set?, get?)" hands the old value
    back when asked and stores the new one when given, or fails and
    changes nothing. *)
Definition adjust_freq (freq : option Z) (want_old : bool) (m : machine)
  : Z * Z * machine :=
  if adjfreq_ret m =? 0 then
    (0, (if want_old then kfreq m else 0),
     match freq with
     | None => m
     | Some f =>
         {| rtcsync := rtcsync m; nts_pairs := nts_pairs m;
            nts_processes := nts_processes m; euid := euid m;
            sched_time := sched_time m; raw_readings := raw_readings m;
            raw_rest := raw_rest m; kfreq := f; kdelta := kdelta m;
            ktime := ktime m; kpromises := kpromises m;
            adjfreq_ret := adjfreq_ret m; adjtime_ret := adjtime_ret m;
            settime_ret := settime_ret m; pledge_ret := pledge_ret m |}
     end)
  else (adjfreq_ret m, 0, m).

(** Modelled from the spec: PRV_AdjustTime of privops.c, which is not
    among the sources; "adjust_time_residual(delta)" makes [delta] the
    kernel's outstanding time adjustment, or fails and changes nothing. *)
Definition adjust_time (delta : option timeval) (m : machine) : Z * machine :=
  if adjtime_ret m =? 0 then
    (0,
     match delta with
     | None => m
     | Some d =>
         {| rtcsync := rtcsync m; nts_pairs := nts_pairs m;
            nts_processes := nts_processes m; euid := euid m;
            sched_time := sched_time m; raw_readings := raw_readings m;
            raw_rest := raw_rest m; kfreq := kfreq m; kdelta := d;
            ktime := ktime m; kpromises := kpromises m;
            adjfreq_ret := adjfreq_ret m; adjtime_ret := adjtime_ret m;
            settime_ret := settime_ret m; pledge_ret := pledge_ret m |}
     end)
  else (adjtime_ret m, m).

Definition with_ktime (tv : timeval) (m : machine) : machine :=
  {| rtcsync := rtcsync m; nts_pairs := nts_pairs m;
     nts_processes := nts_processes m; euid := euid m;
     sched_time := sched_time m; raw_readings := raw_readings m;
     raw_rest := raw_rest m; kfreq := kfreq m; kdelta := kdelta m;
     ktime := tv; kpromises := kpromises m;
     adjfreq_ret := adjfreq_ret m; adjtime_ret := adjtime_ret m;
     settime_ret := settime_ret m; pledge_ret := pledge_ret m |}.

(** Modelled from the spec: PRV_SetTime of privops.c, which is not among
    the sources; "set_time(clock_id, timestamp)", the privileged time-set
    primitive, sets the clock or fails with a negative result. *)
Definition set_time (clock : Z) (ts : timespec) (m : machine) : Z * machine :=
  if settime_ret m <? 0 then (settime_ret m, m)
  else (settime_ret m, with_ktime (timespec_to_timeval ts) m).

Definition set_time_of_day (tv : timeval) (m : machine) : Z * machine :=
  if settime_ret m <? 0 then (settime_ret m, m)
  else (settime_ret m, with_ktime tv m).

Definition read_raw_time (m : machine) : timespec * machine :=
  match raw_readings m with
  | [] => (raw_rest m, m)
  | t :: rest =>
      (t,
       {| rtcsync := rtcsync m; nts_pairs := nts_pairs m;
          nts_processes := nts_processes m; euid := euid m;
          sched_time := sched_time m; raw_readings := rest;
          raw_rest := raw_rest m; kfreq := kfreq m; kdelta := kdelta m;
          ktime := ktime m; kpromises := kpromises m;
          adjfreq_ret := adjfreq_ret m; adjtime_ret := adjtime_ret m;
          settime_ret := settime_ret m; pledge_ret := pledge_ret m |})
  end.

Definition do_pledge (promises : string) (m : machine) : Z * machine :=
  if pledge_ret m <? 0 then (pledge_ret m, m)
  else
    (pledge_ret m,
     {| rtcsync := rtcsync m; nts_pairs := nts_pairs m;
        nts_processes := nts_processes m; euid := euid m;
        sched_time := sched_time m; raw_readings := raw_readings m;
        raw_rest := raw_rest m; kfreq := kfreq m; kdelta := kdelta m;
        ktime := ktime m; kpromises := Some promises;
        adjfreq_ret := adjfreq_ret m; adjtime_ret := adjtime_ret m;
        settime_ret := settime_ret m; pledge_ret := pledge_ret m |}).

#[global] Instance platform : Platform machine := {
  PRV_AdjustFreq := adjust_freq;
  PRV_AdjustTime := adjust_time;
  PRV_SetTime := set_time;
  LCL_ReadRawTime := read_raw_time;
  lcl_InvokeDispersionNotifyHandlers := fun _ m => m;
  SCH_GetLastEventTime := sched_time;
  CNF_GetRtcSync := rtcsync;
  CNF_GetNtsServerCertAndKeyFiles := nts_pairs;
  CNF_GetNtsServerProcesses := nts_processes;
  UTI_DiffTimespecsToDouble := diff_timespecs_to_double;
  UTI_TimespecToTimeval := timespec_to_timeval;
  geteuid := euid;
  pledge := do_pledge;
  settimeofday := set_time_of_day
}.

Definition seconds (n : Z) : timespec := {| tv_sec := n; tv_nsec := 0 |}.

(** A quiet machine: rtcsync on, root, no NTS-KE helpers, every call
    succeeds, all clocks at zero. *)
Definition boot : machine :=
  {| rtcsync := 1; nts_pairs := 0; nts_processes := 0; euid := 0;
     sched_time := seconds 0; raw_readings := []; raw_rest := seconds 0;
     kfreq := 0; kdelta := {| tvl_sec := 0; tv_usec := 0 |};
     ktime := {| tvl_sec := 0; tv_usec := 0 |}; kpromises := None;
     adjfreq_ret := 0; adjtime_ret := 0; settime_ret := 0; pledge_ret := 0 |}.

(** The scheduler reaches time [t]; the next time-set call returns [r]. *)
Definition at_time (t : timespec) (r : Z) (m : machine) : machine :=
  {| rtcsync := rtcsync m; nts_pairs := nts_pairs m;
     nts_processes := nts_processes m; euid := euid m;
     sched_time := t; raw_readings := raw_readings m;
     raw_rest := t; kfreq := kfreq m; kdelta := kdelta m;
     ktime := ktime m; kpromises := kpromises m;
     adjfreq_ret := adjfreq_ret m; adjtime_ret := adjtime_ret m;
     settime_ret := r; pledge_ret := pledge_ret m |}.

Definition start (last : timespec) (m : machine) : state machine :=
  Build_state last [] m.

(** A status report at scheduler time [t] (seconds). *)
Definition status (t : Z) (sync : Z) (settime_result : Z) : report machine :=
  {| evolve := at_time (seconds t) settime_result;
     synchronised := sync;
     est_error := S754_zero false;
     max_error := S754_zero false |}.

End Sim.

(* ================================================================== *)
(** ** Capabilities behind the pledge promises *)

(** The operation categories of the capability policy. *)
Inductive capability : Type :=
| cap_stdio | cap_file_read | cap_file_write | cap_file_create
| cap_network | cap_unix_socket | cap_dns
| cap_fd_send | cap_fd_receive | cap_time_set.

(** The promise names, as the comments of the filter gloss them. *)
Definition promise_capability (p : string) : option capability :=
  if String.eqb p "stdio" then Some cap_stdio
  else if String.eqb p "rpath" then Some cap_file_read
  else if String.eqb p "wpath" then Some cap_file_write
  else if String.eqb p "cpath" then Some cap_file_create
  else if String.eqb p "inet" then Some cap_network
  else if String.eqb p "unix" then Some cap_unix_socket
  else if String.eqb p "dns" then Some cap_dns
  else if String.eqb p "sendfd" then Some cap_fd_send
  else if String.eqb p "recvfd" then Some cap_fd_receive
  else if String.eqb p "settime" then Some cap_time_set
  else None.

(** A promise string is a list of names separated by spaces. *)
Fixpoint words_from (acc : string) (s : string) : list string :=
  match s with
  | EmptyString =>
      match acc with EmptyString => [] | _ => [acc] end
  | String c rest =>
      if Ascii.eqb c " "%char then
        match acc with
        | EmptyString => words_from EmptyString rest
        | _ => acc :: words_from EmptyString rest
        end
      else words_from (acc ++ String c EmptyString) rest
  end.

Definition words (s : string) : list string := words_from EmptyString s.

(** Capabilities a promise string grants; [None] when it holds a name
    the table above does not know. *)
Fixpoint capabilities_of_words (ws : list string) : option (list capability) :=
  match ws with
  | [] => Some []
  | w :: rest =>
      match promise_capability w, capabilities_of_words rest with
      | Some c, Some cs => Some (c :: cs)
      | _, _ => None
      end
  end.

Definition capabilities (promises : string) : option (list capability) :=
  capabilities_of_words (words promises).

(** Two lists hold the same set of capabilities. *)
Definition same_capabilities (a b : list capability) : Prop :=
  forall c, In c a <-> In c b.

(** The promises in force after a trace: those of the last pledge() that
    succeeded, [None] while the process is unrestricted. *)
Fixpoint installed_promises (tr : list event) : option string :=
  match tr with
  | [] => None
  | e :: rest =>
      match installed_promises rest with
      | Some p => Some p
      | None =>
          match e with
          | Pledge p r => if r <? 0 then None else Some p
          | _ => None
          end
      end
  end.

(** The capability table of the specification: the base set of a role and
    what NTS-KE helpers and root privilege add to it. *)
Definition role_capabilities (context : SYS_ProcessContext) (nts root : bool)
  : list capability :=
  match context with
  | SYS_MAIN_PROCESS =>
      [cap_stdio; cap_file_read; cap_file_write; cap_file_create;
       cap_network; cap_unix_socket; cap_dns]
        ++ (if nts then [cap_fd_send] else [])
        ++ (if root then [cap_time_set] else [])
  | SYS_PRIVOPS_HELPER => [cap_stdio; cap_time_set]
  | SYS_NTSKE_HELPER => [cap_stdio; cap_fd_receive]
  end.

Section Filter.

Context {W : Type} {P : Platform W}.

(** An NTS-KE pool is configured: at least one certificate/key pair and a
    positive number of helper processes. *)
Definition nts_pool (w : W) : bool :=
  (0 <? CNF_GetNtsServerCertAndKeyFiles w) && (0 <? CNF_GetNtsServerProcesses w).

Definition is_root (w : W) : bool := geteuid w =? 0.

End Filter.

(** The promise string the filter hands to pledge(), branch by branch. *)
Definition filter_promises (context : SYS_ProcessContext) (nts root : bool)
  : string :=
  match context with
  | SYS_MAIN_PROCESS =>
      if nts then
        if root then "stdio rpath wpath cpath inet unix dns sendfd settime"
        else "stdio rpath wpath cpath inet unix dns sendfd"
      else
        if root then "stdio rpath wpath cpath inet unix dns settime"
        else "stdio rpath wpath cpath inet unix dns"
  | SYS_PRIVOPS_HELPER => "stdio settime"
  | SYS_NTSKE_HELPER => "stdio recvfd"
  end.

(** Severity of the closing log line of the filter. *)
Definition filter_log_severity (context : SYS_ProcessContext) : LOG_Severity :=
  match context with SYS_MAIN_PROCESS => LOGS_INFO | _ => LOGS_DEBUG end.

(** Two calls end the same way and leave the same driver data and the
    same outside; the traces, which count the calls, are not compared. *)
Definition same_post_state {W A} (o1 o2 : outcome W A) : Prop :=
  match o1, o2 with
  | Done a s1, Done b s2 =>
      a = b /\ last_rtc_sync s1 = last_rtc_sync s2 /\ world s1 = world s2
  | Exited s1, Exited s2 =>
      last_rtc_sync s1 = last_rtc_sync s2 /\ world s1 = world s2
  | Undefined, Undefined => True
  | _, _ => False
  end.

(* ================================================================== *)
(** ** Vocabulary for the rounding of binary64 operations *)

(** The rational [N / D] lies in [[m, m + 1)], at the place [l] says:
    on [m], below, at or above the midpoint. *)
Definition loc_ok (m : Z) (l : location) (N D : Z) : Prop :=
  m * D <= N < (m + 1) * D /\
  match l with
  | loc_Exact => N = m * D
  | loc_Inexact Lt => m * D < N /\ 2 * N < (2 * m + 1) * D
  | loc_Inexact Eq => 2 * N = (2 * m + 1) * D
  | loc_Inexact Gt => (2 * m + 1) * D < 2 * N
  end.

(** The same for the record the shifts of [SpecFloat] work on. *)
Definition rec_ok (mrs : shr_record) (N D : Z) : Prop :=
  0 <= shr_m mrs /\ loc_ok (shr_m mrs) (loc_of_shr_record mrs) N D.

(** A rounded result: [r] has sign [sx] and magnitude [m1 * 2^e'], as a
    zero when [m1 = 0] and as a finite double otherwise (whose exponent
    may sit above [e'] after a carry). *)
Definition rounds_to (r : double) (sx : bool) (m1 e' : Z) : Prop :=
  (m1 = 0 /\ r = S754_zero sx) \/
  (exists mR eR, r = S754_finite sx mR eR /\ e' <= eR /\
                 Zpos mR * 2 ^ (eR - e') = m1 /\ Zpos mR < 2 ^ prec).

(** [1000 * 2^32] as a rational. *)
Definition SQ : Q := 4294967296000 # 1.

(** [2^-36]: the spacing of doubles between 65536 and MAX_FREQ. *)
Definition ulp_MAX_FREQ : Q := 1 # 68719476736.

(* ================================================================== *)
(** ** Start-up of the driver *)

(** struct clockinfo of <sys/time.h> *)
Record clockinfo : Type := { hz : Z; tick : Z; stathz : Z; profhz : Z }.

(** Modelled from the spec: the argument list of
    SYS_Generic_CompleteFreqDriver (sys_generic.h is not among the
    sources): "{max-frequency bound, tick interval, read-frequency fn,
    set-frequency fn, optional raw-time-apply fn, optional min/max slew
    bounds, optional leap-status hooks, status-report fn}".  A function
    pointer that may be NULL is an [option]. *)
Record freq_driver (W : Type) : Type := {
  max_set_freq_ppm : double;
  max_set_freq_delay : double;
  sys_read_freq : M W double;
  sys_set_freq : double -> M W double;
  sys_apply_step_offset : option (double -> M W Z);
  min_fastslew_offset : double;
  max_fastslew_rate : double;
  sys_accrue_offset : option (double -> double -> M W unit);
  sys_get_offset_correction : option (timespec -> M W (double * double));
  sys_set_leap : option (Z -> Z -> M W unit);
  sys_set_sync_status : option (Z -> double -> double -> M W unit)
}.
Arguments max_set_freq_ppm {W} _.
Arguments max_set_freq_delay {W} _.
Arguments sys_read_freq {W} _.
Arguments sys_set_freq {W} _.
Arguments sys_apply_step_offset {W} _.
Arguments min_fastslew_offset {W} _.
Arguments max_fastslew_rate {W} _.
Arguments sys_accrue_offset {W} _.
Arguments sys_get_offset_correction {W} _.
Arguments sys_set_leap {W} _.
Arguments sys_set_sync_status {W} _.

(** What initialisation calls besides the [Platform]: the
    {CTL_KERN, KERN_CLOCKRATE} sysctl, which only reads the kernel, and
    the registration with the generic driver. *)
Class Engine (W : Type) : Type := {
  sysctl_kern_clockrate : W -> Z * clockinfo;
  SYS_Generic_CompleteFreqDriver : freq_driver W -> W -> W
}.

Section Startup.

Context {W : Type} {P : Platform W} {E : Engine W}.

Definition get_clockinfo : M W clockinfo :=
  r <- ask sysctl_kern_clockrate ;;
  (if fst r <? 0 then LOG_FATAL "sysctl() failed" else ret tt) ;;
  ret (snd r).

(** The arguments of the registration: [1.0 / cinfo.hz] divides the
    double 1.0 by the converted int. *)
Definition openbsd_driver (cinfo : clockinfo) : freq_driver W :=
  {| max_set_freq_ppm := MAX_FREQ;
     max_set_freq_delay := ddiv (int64_to_double 1) (int64_to_double (hz cinfo));
     sys_read_freq := read_frequency;
     sys_set_freq := set_frequency;
     sys_apply_step_offset := None;
     min_fastslew_offset := S754_zero false;
     max_fastslew_rate := S754_zero false;
     sys_accrue_offset := None;
     sys_get_offset_correction := None;
     sys_set_leap := None;
     sys_set_sync_status := Some set_sync_status |}.

Definition SYS_OpenBSD_Initialise : M W unit :=
  cinfo <- get_clockinfo ;;
  reset_adjtime_offset ;;
  (* [LCL_ReadRawTime(&last_rtc_sync)] *)
  ts <- call LCL_ReadRawTime ;;
  set_last_rtc_sync ts ;;
  call (fun w => (tt, SYS_Generic_CompleteFreqDriver (openbsd_driver cinfo) w)).

(** PRV_SetTime() when it is the override of this file that sets the
    clock ("PRV_SetTime() uses clock_settime() to set the system time"):
    the call seen as a collaborator, result and outside. *)
Definition override_set_time (clock : Z) (ts : timespec) (w : W) : Z * W :=
  match clock_settime clock ts (Build_state ts [] w) with
  | Done r s' => (r, world s')
  | Exited s' => (-1, world s')
  | Undefined => (-1, w)
  end.

End Startup.

(** The machine as an engine: the sysctl answers [(ret, hz)] and the
    registration leaves the machine alone. *)
Definition sim_engine (sysctl_ret : Z) (clock_hz : Z) : Engine Sim.machine :=
  {| sysctl_kern_clockrate := fun _ =>
       (sysctl_ret, {| hz := clock_hz; tick := 0; stathz := 0; profhz := 0 |});
     SYS_Generic_CompleteFreqDriver := fun _ m => m |}.

(* ================================================================== *)
(** ** Counting in traces *)

Definition count_events (f : event -> bool) (tr : list event) : nat :=
  List.length (filter f tr).

Definition is_SetTime_ok (e : event) : bool :=
  match e with SetTime _ _ r => negb (r <? 0) | _ => false end.

Definition is_SetTime_failed (e : event) : bool :=
  match e with SetTime _ _ r => r <? 0 | _ => false end.

Definition is_DispersionNotify (e : event) : bool :=
  match e with DispersionNotify _ => true | _ => false end.

Definition is_log (sev : LOG_Severity) (msg : string) (e : event) : bool :=
  match e with
  | Log sev' msg' =>
      match sev, sev' with
      | LOGS_DEBUG, LOGS_DEBUG | LOGS_INFO, LOGS_INFO | LOGS_WARN, LOGS_WARN
      | LOGS_ERR, LOGS_ERR | LOGS_FATAL, LOGS_FATAL => String.eqb msg msg'
      | _, _ => false
      end
  | _ => false
  end.

Definition is_fatal_log (e : event) : bool :=
  match e with Log LOGS_FATAL _ => true | _ => false end.

(** Events the status callback can add to a trace. *)
Definition is_status_event (e : event) : bool :=
  match e with
  | SetTime clock _ _ => clock =? CLOCK_REALTIME
  | DispersionNotify d => negb (SFltb d (S754_zero false))
  | Log LOGS_DEBUG _ => true
  | _ => false
  end.

(** The books of the resynchroniser balance: one "rtc synchronised" per
    attempt, one dispersion notification per attempt that went through,
    one "clock_settime() failed" per attempt that did not. *)
Definition balanced (tr : list event) : Prop :=
  count_events (is_log LOGS_DEBUG "rtc synchronised") tr
  = count_events is_SetTime tr /\
  count_events is_DispersionNotify tr = count_events is_SetTime_ok tr /\
  count_events (is_log LOGS_DEBUG "clock_settime() failed") tr
  = count_events is_SetTime_failed tr.

(* ================================================================== *)
(** * Properties *)

(** ** The status callback and the RTC *)

Section StatusFacts.

Context {W : Type} {P : Platform W}.

Ltac norm_trace := rewrite <- ?app_assoc; simpl.

(** What one call of the status callback does, case by case. *)
Lemma set_sync_status_unfold (sync : Z) (e1 e2 : double) (s : state W) :
  set_sync_status sync e1 e2 s =
  if gate_open sync s then
    if dge (fabs (rtc_sync_elapsed s)) RTC_SYNC_INTERVAL then
      let now := SCH_GetLastEventTime (world s) in
      let '(ts, w1) := LCL_ReadRawTime (world s) in
      let '(r, w2) := PRV_SetTime CLOCK_REALTIME ts w1 in
      if r <? 0 then
        Done tt (Build_state now
                   (trace s ++ [SetTime CLOCK_REALTIME ts r;
                                Log LOGS_DEBUG "clock_settime() failed";
                                Log LOGS_DEBUG "rtc synchronised"]) w2)
      else
        let '(new_ts, w3) := LCL_ReadRawTime w2 in
        let d := fabs (UTI_DiffTimespecsToDouble new_ts ts) in
        Done tt (Build_state now
                   (trace s ++ [SetTime CLOCK_REALTIME ts r;
                                DispersionNotify d;
                                Log LOGS_DEBUG "rtc synchronised"])
                   (lcl_InvokeDispersionNotifyHandlers d w3))
    else Done tt s
  else Done tt s.
Proof.
  unfold set_sync_status, gate_open, rtc_sync_elapsed, bind, ask, ret.
  destruct (sync =? 0); simpl; [reflexivity|].
  destruct (CNF_GetRtcSync (world s) =? 0); simpl; [reflexivity|].
  unfold get_last_rtc_sync.
  destruct (dge _ _); [|reflexivity].
  unfold synchronise_rtc, do_SetTime, do_DispersionNotify, DEBUG_LOG, LOG,
    set_last_rtc_sync, bind, call, emit, ret; simpl.
  destruct (LCL_ReadRawTime (world s)) as [ts w1]; simpl.
  destruct (PRV_SetTime CLOCK_REALTIME ts w1) as [r w2]; simpl.
  destruct (r <? 0); simpl.
  - norm_trace. reflexivity.
  - destruct (LCL_ReadRawTime w2) as [new_ts w3]; simpl.
    norm_trace. reflexivity.
Qed.

(** X1: The status callback always returns: it has no fatal path, not
    even when the time-set call fails, and none whose behaviour is
    undefined. *)
Lemma set_sync_status_returns (sync : Z) (e1 e2 : double) (s : state W) :
  exists s', set_sync_status sync e1 e2 s = Done tt s'.
Proof.
  rewrite set_sync_status_unfold.
  destruct (gate_open sync s); [|eauto].
  destruct (dge _ _); [|eauto]. cbv zeta.
  destruct (LCL_ReadRawTime (world s)) as [ts w1].
  destruct (PRV_SetTime CLOCK_REALTIME ts w1) as [r w2].
  destruct (r <? 0); [eauto|].
  destruct (LCL_ReadRawTime w2) as [new_ts w3]. eauto.
Qed.

Lemma rtc_commits_app (a b : list event) :
  rtc_commits (a ++ b) = (rtc_commits a + rtc_commits b)%nat.
Proof. unfold rtc_commits. now rewrite filter_app, length_app. Qed.

(** A report either leaves baseline and commit count alone, or attempts
    exactly one commit, which it does only when the gates are open and the
    elapsed time is an hour or more, and then the baseline is the
    scheduler time of the report. *)
Lemma deliver_cases (r : report W) (s : state W) :
  (last_rtc_sync (deliver r s) = last_rtc_sync s /\
   rtc_commits (trace (deliver r s)) = rtc_commits (trace s))
  \/
  (gate_open (synchronised r) (arrive r s) = true /\
   dge (fabs (UTI_DiffTimespecsToDouble (report_time r s) (last_rtc_sync s)))
       RTC_SYNC_INTERVAL = true /\
   last_rtc_sync (deliver r s) = report_time r s /\
   rtc_commits (trace (deliver r s)) = S (rtc_commits (trace s))).
Proof.
  unfold deliver, final_state. rewrite set_sync_status_unfold.
  destruct (gate_open _ _) eqn:G; [|left; split; reflexivity].
  unfold rtc_sync_elapsed, report_time.
  cbn [arrive world last_rtc_sync trace].
  destruct (dge _ _) eqn:E; [|left; split; reflexivity].
  right. cbv zeta.
  destruct (LCL_ReadRawTime _) as [ts w1].
  destruct (PRV_SetTime CLOCK_REALTIME ts w1) as [rc w2].
  destruct (rc <? 0).
  - cbn [trace last_rtc_sync]. rewrite rtc_commits_app. repeat split; auto.
    unfold rtc_commits; simpl; lia.
  - destruct (LCL_ReadRawTime w2) as [new_ts w3].
    cbn [trace last_rtc_sync]. rewrite rtc_commits_app. repeat split; auto.
    unfold rtc_commits; simpl; lia.
Qed.

Lemma deliver_all_cons (r : report W) (rs : list (report W)) (s : state W) :
  deliver_all (r :: rs) s = deliver_all rs (deliver r s).
Proof. reflexivity. Qed.

(** Commit attempts only accumulate. *)
Lemma deliver_all_commits_mono (rs : list (report W)) (s : state W) :
  (rtc_commits (trace s) <= rtc_commits (trace (deliver_all rs s)))%nat.
Proof.
  revert s. induction rs as [|r rs IH]; intros s; [simpl; lia|].
  rewrite deliver_all_cons. specialize (IH (deliver r s)).
  destruct (deliver_cases r s) as [[_ C]|[_ [_ [_ C]]]]; lia.
Qed.

(** Reports that attempt no commit leave the baseline where it was. *)
Lemma deliver_all_quiet (rs : list (report W)) (s : state W) :
  rtc_commits (trace (deliver_all rs s)) = rtc_commits (trace s) ->
  last_rtc_sync (deliver_all rs s) = last_rtc_sync s.
Proof.
  revert s. induction rs as [|r rs IH]; intros s H; [reflexivity|].
  rewrite deliver_all_cons in *.
  pose proof (deliver_all_commits_mono rs (deliver r s)) as Mono.
  destruct (deliver_cases r s) as [[L C]|[_ [_ [_ C]]]].
  - rewrite IH by lia. exact L.
  - lia.
Qed.

End StatusFacts.

Section StatusClaims.

Context {W : Type} {P : Platform W}.

(** Below minus a positive bound means above the bound in absolute
    value. *)
Lemma below_opp_above_abs (d : double) (m0 : positive) (e0 : Z) :
  SFleb d (SFopp (S754_finite false m0 e0)) = true ->
  SFleb (S754_finite false m0 e0) (SFabs d) = true.
Proof.
  unfold SFleb, SFcompare, SFopp, SFabs.
  destruct d as [s|s| |s m e]; try discriminate.
  - destruct s; [reflexivity|discriminate].
  - destruct s; cbn [negb]; [|discriminate].
    rewrite (Z.compare_antisym e e0).
    destruct (e ?= e0); cbn [CompOpp]; try discriminate; try reflexivity.
    rewrite (Pos.compare_cont_antisym m m0 Eq). cbn [CompOpp].
    destruct (Pos.compare_cont Eq m0 m); try discriminate; reflexivity.
Qed.

Lemma RTC_SYNC_INTERVAL_value :
  RTC_SYNC_INTERVAL = S754_finite false 7916483719987200 (-41).
Proof. vm_compute. reflexivity. Qed.

(** An elapsed time of minus one hour or less passes the gate that
    compares its absolute value with the interval. *)
Lemma backward_hour_passes (d : double) :
  dle d (dneg RTC_SYNC_INTERVAL) = true ->
  dge (fabs d) RTC_SYNC_INTERVAL = true.
Proof.
  unfold dle, dge, dneg, fabs. rewrite RTC_SYNC_INTERVAL_value.
  apply below_opp_above_abs.
Qed.

(** C4: a status report with [synchronised] false, or with rtcsync off in
    the configuration, returns at once and leaves the whole state as it
    was -- baseline, trace (so no time-set call and no log line) and
    outside -- whatever the scheduler time and the baseline are. *)
Theorem status_gated_is_silent (sync : Z) (e1 e2 : double) (s : state W) :
  sync = 0 \/ CNF_GetRtcSync (world s) = 0 ->
  set_sync_status sync e1 e2 s = Done tt s.
Proof.
  intros H. rewrite set_sync_status_unfold.
  replace (gate_open sync s) with false; [reflexivity|].
  unfold gate_open. destruct H as [-> | ->]; simpl;
    [reflexivity | now rewrite andb_false_r].
Qed.

(** C1 (amended): when the resynchroniser fires and the time-set call
    fails, the driver logs "clock_settime() failed" at debug level and
    skips the dispersion notification, but the callback still moves the
    baseline to the scheduler time of the report and logs
    "rtc synchronised"; a later report attempts no commit as long as its
    scheduler time is less than an hour away from that new baseline. *)
Theorem rtc_failure_still_rebaselines
  (sync : Z) (e1 e2 : double) (s : state W)
  (ts : timespec) (w1 w2 : W) (rc : Z) :
  gate_open sync s = true ->
  dge (fabs (rtc_sync_elapsed s)) RTC_SYNC_INTERVAL = true ->
  LCL_ReadRawTime (world s) = (ts, w1) ->
  PRV_SetTime CLOCK_REALTIME ts w1 = (rc, w2) ->
  rc < 0 ->
  let now := SCH_GetLastEventTime (world s) in
  let s' := Build_state now
              (trace s ++ [SetTime CLOCK_REALTIME ts rc;
                           Log LOGS_DEBUG "clock_settime() failed";
                           Log LOGS_DEBUG "rtc synchronised"]) w2 in
  set_sync_status sync e1 e2 s = Done tt s' /\
  forall r : report W,
    dge (fabs (UTI_DiffTimespecsToDouble (report_time r s') now))
        RTC_SYNC_INTERVAL = false ->
    rtc_commits (trace (deliver r s')) = rtc_commits (trace s') /\
    last_rtc_sync (deliver r s') = now.
Proof.
  intros G E R1 R2 Hrc now s'. split.
  - rewrite set_sync_status_unfold, G, E. cbv zeta. rewrite R1, R2.
    apply Z.ltb_lt in Hrc. rewrite Hrc. reflexivity.
  - intros r Hr.
    destruct (deliver_cases r s') as [[L C]|[_ [E' _]]].
    + split; [exact C | exact L].
    + change (last_rtc_sync s') with now in E'. rewrite Hr in E'.
      discriminate.
Qed.

(** C2: for reports that pass both gates, a commit is attempted exactly
    when the absolute value of the elapsed scheduler time since the
    baseline is at least 3600 s, and the baseline then becomes the
    scheduler time of the report; hence between two successive attempts
    the scheduler clock has moved by at least 3600 s in absolute value,
    and an elapsed time of -3600 s or less fires like a positive one. *)
Theorem rtc_commit_rate_limited (s : state W) :
  (forall r : report W,
      gate_open (synchronised r) (arrive r s) = true ->
      let elapsed := UTI_DiffTimespecsToDouble (report_time r s) (last_rtc_sync s) in
      if dge (fabs elapsed) RTC_SYNC_INTERVAL then
        rtc_commits (trace (deliver r s)) = S (rtc_commits (trace s)) /\
        last_rtc_sync (deliver r s) = report_time r s
      else
        deliver r s = arrive r s) /\
  (forall (r1 : report W) (mid : list (report W)) (r2 : report W),
      let s1 := deliver r1 s in
      let s2 := deliver_all mid s1 in
      rtc_commits (trace s1) = S (rtc_commits (trace s)) ->
      rtc_commits (trace s2) = rtc_commits (trace s1) ->
      rtc_commits (trace (deliver r2 s2)) = S (rtc_commits (trace s2)) ->
      dge (fabs (UTI_DiffTimespecsToDouble (report_time r2 s2) (report_time r1 s)))
          RTC_SYNC_INTERVAL = true) /\
  (forall r : report W,
      gate_open (synchronised r) (arrive r s) = true ->
      dle (UTI_DiffTimespecsToDouble (report_time r s) (last_rtc_sync s))
          (dneg RTC_SYNC_INTERVAL) = true ->
      rtc_commits (trace (deliver r s)) = S (rtc_commits (trace s)) /\
      last_rtc_sync (deliver r s) = report_time r s).
Proof.
  assert (Fire : forall r : report W,
             gate_open (synchronised r) (arrive r s) = true ->
             dge (fabs (UTI_DiffTimespecsToDouble (report_time r s)
                          (last_rtc_sync s))) RTC_SYNC_INTERVAL = true ->
             rtc_commits (trace (deliver r s)) = S (rtc_commits (trace s)) /\
             last_rtc_sync (deliver r s) = report_time r s).
  { intros r G E. unfold deliver, final_state.
    rewrite set_sync_status_unfold, G.
    unfold rtc_sync_elapsed, report_time in *.
    cbn [arrive world last_rtc_sync trace]. rewrite E. cbv zeta.
    destruct (LCL_ReadRawTime _) as [ts w1].
    destruct (PRV_SetTime CLOCK_REALTIME ts w1) as [rc w2].
    destruct (rc <? 0).
    - cbn [trace last_rtc_sync]. rewrite rtc_commits_app.
      split; [|reflexivity]. unfold rtc_commits; simpl; lia.
    - destruct (LCL_ReadRawTime w2) as [new_ts w3].
      cbn [trace last_rtc_sync]. rewrite rtc_commits_app.
      split; [|reflexivity]. unfold rtc_commits; simpl; lia. }
  split; [|split].
  - intros r G elapsed. subst elapsed. destruct (dge _ _) eqn:E.
    + apply Fire; assumption.
    + unfold deliver, final_state. rewrite set_sync_status_unfold, G.
      unfold rtc_sync_elapsed, report_time in *.
      cbn [arrive world last_rtc_sync trace]. now rewrite E.
  - intros r1 mid r2 s1 s2 H1 Hmid H2.
    assert (B1 : last_rtc_sync s1 = report_time r1 s).
    { destruct (deliver_cases r1 s) as [[_ C]|[_ [_ [L _]]]];
        [fold s1 in C; lia | exact L]. }
    assert (B2 : last_rtc_sync s2 = report_time r1 s).
    { unfold s2. rewrite deliver_all_quiet by exact Hmid. exact B1. }
    destruct (deliver_cases r2 s2) as [[_ C]|[_ [E _]]]; [lia|].
    now rewrite B2 in E.
  - intros r G E. apply Fire; [exact G|]. now apply backward_hour_passes.
Qed.

End StatusClaims.

(** The three reports of the specification's rate-limiting example, on a
    machine whose baseline is one hour old at t = 0: the report at 0 s
    fires, the one at 1800 s does not, the one at 3700 s fires. *)
Example rate_limiting_run :
  let s0 := Sim.start (Sim.seconds (-3600)) Sim.boot in
  let s1 := deliver (Sim.status 0 1 0) s0 in
  let s2 := deliver (Sim.status 1800 1 0) s1 in
  let s3 := deliver (Sim.status 3700 1 0) s2 in
  (rtc_commits (trace s1), last_rtc_sync s1) = (1%nat, Sim.seconds 0) /\
  (rtc_commits (trace s2), last_rtc_sync s2) = (1%nat, Sim.seconds 0) /\
  (rtc_commits (trace s3), last_rtc_sync s3) = (2%nat, Sim.seconds 3700).
Proof. vm_compute. repeat split. Qed.

Lemma status_gated_is_silent_witness :
  let s := Sim.start (Sim.seconds 0)
             (Sim.at_time (Sim.seconds 86400) 0 Sim.boot) in
  set_sync_status 0 (S754_zero false) (S754_zero false) s = Done tt s.
Proof.
  intros s. apply (status_gated_is_silent 0 _ _ s). left. reflexivity.
Defined.

(** C1 as stated fails: the baseline is one hour old, the time-set call
    fails, and the baseline moves all the same; the report one minute
    later, for which the call would succeed, attempts nothing. *)
Lemma rtc_failure_moves_baseline :
  let s := Sim.start (Sim.seconds 0) Sim.boot in
  let s1 := deliver (Sim.status 3600 1 (-1)) s in
  let s2 := deliver (Sim.status 3660 1 0) s1 in
  trace s1 = [SetTime CLOCK_REALTIME (Sim.seconds 3600) (-1);
              Log LOGS_DEBUG "clock_settime() failed";
              Log LOGS_DEBUG "rtc synchronised"] /\
  last_rtc_sync s = Sim.seconds 0 /\
  last_rtc_sync s1 = Sim.seconds 3600 /\
  last_rtc_sync s1 <> last_rtc_sync s /\
  trace s2 = trace s1.
Proof.
  vm_compute. repeat split. discriminate.
Qed.

Lemma rtc_failure_still_rebaselines_witness :
  let s := Sim.start (Sim.seconds 0)
             (Sim.at_time (Sim.seconds 3600) (-1) Sim.boot) in
  exists s',
    set_sync_status 1 (S754_zero false) (S754_zero false) s = Done tt s' /\
    last_rtc_sync s' = Sim.seconds 3600.
Proof.
  intros s.
  assert (G : gate_open 1 s = true) by (vm_compute; reflexivity).
  assert (E : dge (fabs (rtc_sync_elapsed s)) RTC_SYNC_INTERVAL = true)
    by (vm_compute; reflexivity).
  assert (R1 : LCL_ReadRawTime (world s) = (Sim.seconds 3600, world s))
    by (vm_compute; reflexivity).
  assert (R2 : PRV_SetTime CLOCK_REALTIME (Sim.seconds 3600) (world s)
               = (-1, world s)) by (vm_compute; reflexivity).
  assert (N : -1 < 0) by lia.
  destruct (rtc_failure_still_rebaselines
              1 (S754_zero false) (S754_zero false) s
              (Sim.seconds 3600) (world s) (world s) (-1) G E R1 R2 N)
    as [H _].
  eexists. split; [exact H | vm_compute; reflexivity].
Defined.

Lemma rtc_commit_rate_limited_witness :
  let s := Sim.start (Sim.seconds (-3600)) Sim.boot in
  dge (fabs (UTI_DiffTimespecsToDouble
               (report_time (Sim.status 3700 1 0)
                  (deliver_all [Sim.status 1800 1 0]
                     (deliver (Sim.status 0 1 0) s)))
               (report_time (Sim.status 0 1 0) s)))
      RTC_SYNC_INTERVAL = true.
Proof.
  intros s.
  apply (proj1 (proj2 (rtc_commit_rate_limited s))
           (Sim.status 0 1 0) [Sim.status 1800 1 0] (Sim.status 3700 1 0));
    vm_compute; reflexivity.
Defined.

(** ** The system-call filter *)

Section FilterClaims.

Context {W : Type} {P : Platform W}.

Ltac norm_trace := rewrite <- ?app_assoc; simpl.

(** What the filter does, for every level and role. *)
Lemma filter_unfold (level : Z) (context : SYS_ProcessContext) (s : state W) :
  SYS_OpenBSD_EnableSystemCallFilter level context s =
  if negb (level =? 1) && SYS_ProcessContext_eqb context SYS_MAIN_PROCESS then
    Exited (Build_state (last_rtc_sync s)
              (trace s ++ [Log LOGS_FATAL "Unsupported filter level"])
              (world s))
  else
    let p := filter_promises context (nts_pool (world s)) (is_root (world s)) in
    let '(r, w') := pledge p (world s) in
    if r <? 0 then
      Exited (Build_state (last_rtc_sync s)
                (trace s ++ [Pledge p r; Log LOGS_FATAL "pledge() failed"]) w')
    else
      Done tt (Build_state (last_rtc_sync s)
                 (trace s ++ [Pledge p r;
                              Log (filter_log_severity context)
                                  "Loaded pledge filter"]) w').
Proof.
  unfold SYS_OpenBSD_EnableSystemCallFilter, bind.
  destruct (negb (level =? 1) && SYS_ProcessContext_eqb context SYS_MAIN_PROCESS);
    [reflexivity|].
  unfold ret at 1. cbv zeta.
  unfold nts_pool, is_root, filter_promises.
  destruct context; unfold ask; simpl.
  - destruct ((0 <? CNF_GetNtsServerCertAndKeyFiles (world s))
              && (0 <? CNF_GetNtsServerProcesses (world s)));
      destruct (geteuid (world s) =? 0);
      unfold pledge_or_die, do_pledge, LOG, LOG_FATAL, bind, call, emit, ret;
      simpl;
      match goal with |- context [pledge ?p ?w] =>
        destruct (pledge p w) as [r w'] end; simpl;
      destruct (r <? 0); simpl; norm_trace; reflexivity.
  - unfold pledge_or_die, do_pledge, LOG, LOG_FATAL, bind, call, emit, ret;
      simpl.
    destruct (pledge _ (world s)) as [r w']; simpl.
    destruct (r <? 0); simpl; norm_trace; reflexivity.
  - unfold pledge_or_die, do_pledge, LOG, LOG_FATAL, bind, call, emit, ret;
      simpl.
    destruct (pledge _ (world s)) as [r w']; simpl.
    destruct (r <? 0); simpl; norm_trace; reflexivity.
Qed.

(** The promise string of every branch grants exactly the capabilities of
    the specification's table. *)
Lemma filter_promises_capabilities
  (context : SYS_ProcessContext) (nts root : bool) :
  capabilities (filter_promises context nts root)
  = Some (role_capabilities context nts root).
Proof. destruct context, nts, root; vm_compute; reflexivity. Qed.

Lemma installed_promises_app (a b : list event) :
  installed_promises (a ++ b) =
  match installed_promises b with
  | Some p => Some p
  | None => installed_promises a
  end.
Proof.
  induction a as [|e a IH]; simpl.
  - now destruct (installed_promises b).
  - rewrite IH. destruct (installed_promises b); reflexivity.
Qed.

(** C3: in the main process, at the supported level, the filter calls
    pledge() once, with promises that grant exactly stdio, file
    read/write/create, network, unix sockets and DNS, plus fd-send iff an
    NTS-KE pool is configured, plus time-set iff the effective uid is
    root; when pledge() accepts them they are the promises in force, and
    whenever the call returns, at whatever level, it is these that it
    installed. *)
Theorem main_filter_capabilities (s : state W) :
  let nts := nts_pool (world s) in
  let root := is_root (world s) in
  let p := filter_promises SYS_MAIN_PROCESS nts root in
  let base := [cap_stdio; cap_file_read; cap_file_write; cap_file_create;
               cap_network; cap_unix_socket; cap_dns] in
  (exists caps,
      capabilities p = Some caps /\
      same_capabilities caps
        (base ++ (if nts then [cap_fd_send] else [])
              ++ (if root then [cap_time_set] else []))) /\
  (let '(r, w') := pledge p (world s) in
   SYS_OpenBSD_EnableSystemCallFilter 1 SYS_MAIN_PROCESS s =
   if r <? 0 then
     Exited (Build_state (last_rtc_sync s)
               (trace s ++ [Pledge p r; Log LOGS_FATAL "pledge() failed"]) w')
   else
     Done tt (Build_state (last_rtc_sync s)
                (trace s ++ [Pledge p r; Log LOGS_INFO "Loaded pledge filter"])
                w')) /\
  (forall (level : Z) (s' : state W),
      SYS_OpenBSD_EnableSystemCallFilter level SYS_MAIN_PROCESS s = Done tt s' ->
      level = 1 /\ installed_promises (trace s') = Some p).
Proof.
  intros nts root p base. split; [|split].
  - exists (role_capabilities SYS_MAIN_PROCESS nts root). split.
    + apply filter_promises_capabilities.
    + intros c. simpl. tauto.
  - rewrite filter_unfold. change (1 =? 1) with true.
    cbn [negb andb filter_log_severity]. cbv zeta. fold nts root p.
    destruct (pledge p (world s)) as [r w']. reflexivity.
  - intros level s' H. rewrite filter_unfold in H.
    cbn [SYS_ProcessContext_eqb filter_log_severity] in H.
    rewrite andb_true_r in H.
    destruct (level =? 1) eqn:L; cbn [negb] in H; [|discriminate].
    apply Z.eqb_eq in L. split; [exact L|].
    cbv zeta in H. fold nts root p in H.
    destruct (pledge p (world s)) as [r w'].
    destruct (r <? 0) eqn:R; [discriminate|].
    inversion H; subst; clear H. cbn [trace].
    rewrite installed_promises_app. cbn [installed_promises].
    now rewrite R.
Qed.

(** C7: in the main process every level other than 1 ends the process
    with the fatal message "Unsupported filter level"; pledge() is not
    called, so no promises, weaker or otherwise, are installed and the
    outside is untouched. *)
Theorem unsupported_level_is_fatal (level : Z) (s : state W) :
  level <> 1 ->
  SYS_OpenBSD_EnableSystemCallFilter level SYS_MAIN_PROCESS s =
  Exited (Build_state (last_rtc_sync s)
            (trace s ++ [Log LOGS_FATAL "Unsupported filter level"])
            (world s)) /\
  installed_promises (trace s ++ [Log LOGS_FATAL "Unsupported filter level"])
  = installed_promises (trace s).
Proof.
  intros H. split.
  - rewrite filter_unfold. apply Z.eqb_neq in H. rewrite H. reflexivity.
  - rewrite installed_promises_app. reflexivity.
Qed.

(** C8: a helper process gets the fixed promises of its role, whatever
    the level, the NTS-KE configuration and the effective uid: the
    privileged helper pledges "stdio settime", that is exactly stdio and
    time-set, and the NTS-KE helper "stdio recvfd", that is exactly stdio
    and fd-receive. *)
Theorem helper_filter_capabilities (level : Z) (s : state W) :
  (let '(r, w') := pledge "stdio settime" (world s) in
   SYS_OpenBSD_EnableSystemCallFilter level SYS_PRIVOPS_HELPER s =
   if r <? 0 then
     Exited (Build_state (last_rtc_sync s)
               (trace s ++ [Pledge "stdio settime" r;
                            Log LOGS_FATAL "pledge() failed"]) w')
   else
     Done tt (Build_state (last_rtc_sync s)
                (trace s ++ [Pledge "stdio settime" r;
                             Log LOGS_DEBUG "Loaded pledge filter"]) w')) /\
  (let '(r, w') := pledge "stdio recvfd" (world s) in
   SYS_OpenBSD_EnableSystemCallFilter level SYS_NTSKE_HELPER s =
   if r <? 0 then
     Exited (Build_state (last_rtc_sync s)
               (trace s ++ [Pledge "stdio recvfd" r;
                            Log LOGS_FATAL "pledge() failed"]) w')
   else
     Done tt (Build_state (last_rtc_sync s)
                (trace s ++ [Pledge "stdio recvfd" r;
                             Log LOGS_DEBUG "Loaded pledge filter"]) w')) /\
  capabilities "stdio settime" = Some [cap_stdio; cap_time_set] /\
  capabilities "stdio recvfd" = Some [cap_stdio; cap_fd_receive] /\
  (forall nts root,
      role_capabilities SYS_PRIVOPS_HELPER nts root = [cap_stdio; cap_time_set] /\
      role_capabilities SYS_NTSKE_HELPER nts root = [cap_stdio; cap_fd_receive]).
Proof.
  split; [|split; [|split; [|split]]].
  - rewrite filter_unfold.
    cbn [SYS_ProcessContext_eqb filter_log_severity filter_promises].
    rewrite andb_false_r. cbv zeta.
    destruct (pledge _ (world s)) as [r w']. reflexivity.
  - rewrite filter_unfold.
    cbn [SYS_ProcessContext_eqb filter_log_severity filter_promises].
    rewrite andb_false_r. cbv zeta.
    destruct (pledge _ (world s)) as [r w']. reflexivity.
  - vm_compute. reflexivity.
  - vm_compute. reflexivity.
  - intros; split; reflexivity.
Qed.

End FilterClaims.

Lemma unsupported_level_is_fatal_witness :
  let s := Sim.start (Sim.seconds 0) Sim.boot in
  SYS_OpenBSD_EnableSystemCallFilter 2 SYS_MAIN_PROCESS s =
  Exited (Build_state (last_rtc_sync s)
            [Log LOGS_FATAL "Unsupported filter level"] (world s)).
Proof.
  intros s.
  exact (proj1 (unsupported_level_is_fatal 2 s ltac:(discriminate))).
Defined.

(** The four configurations of the main process, run on the machine. *)
Example main_filter_runs :
  let run nts euid :=
    installed_promises
      (trace (final_state
                (SYS_OpenBSD_EnableSystemCallFilter 1 SYS_MAIN_PROCESS)
                (Sim.start (Sim.seconds 0)
                   {| Sim.rtcsync := 1; Sim.nts_pairs := nts;
                      Sim.nts_processes := nts; Sim.euid := euid;
                      Sim.sched_time := Sim.seconds 0;
                      Sim.raw_readings := []; Sim.raw_rest := Sim.seconds 0;
                      Sim.kfreq := 0;
                      Sim.kdelta := zero_timeval; Sim.ktime := zero_timeval;
                      Sim.kpromises := None;
                      Sim.adjfreq_ret := 0; Sim.adjtime_ret := 0;
                      Sim.settime_ret := 0; Sim.pledge_ret := 0 |}))) in
  run 1 0 = Some "stdio rpath wpath cpath inet unix dns sendfd settime"%string /\
  run 1 1000 = Some "stdio rpath wpath cpath inet unix dns sendfd"%string /\
  run 0 0 = Some "stdio rpath wpath cpath inet unix dns settime"%string /\
  run 0 1000 = Some "stdio rpath wpath cpath inet unix dns"%string.
Proof. vm_compute. repeat split. Qed.

(** ** The adjtime reset and the clock_settime override *)

Section ResetClaims.

Context {W : Type} {P : Platform W}.

(** Every call of the reset hands the kernel the zero delta, whatever the
    state, and exits when the kernel refuses it. *)
Lemma reset_adjtime_offset_unfold (s : state W) :
  reset_adjtime_offset s =
  let '(r, w') := PRV_AdjustTime (Some zero_timeval) (world s) in
  if r =? 0 then
    Done tt (Build_state (last_rtc_sync s)
               (trace s ++ [AdjustTime (Some zero_timeval) r]) w')
  else
    Exited (Build_state (last_rtc_sync s)
              (trace s ++ [AdjustTime (Some zero_timeval) r;
                           Log LOGS_FATAL "adjtime() failed"]) w').
Proof.
  unfold reset_adjtime_offset, do_AdjustTime, LOG_FATAL, bind, call, emit, ret.
  simpl. destruct (PRV_AdjustTime _ _) as [r w']. simpl.
  destruct (r =? 0); simpl; [reflexivity|].
  rewrite <- app_assoc. reflexivity.
Qed.

(** C10: the override returns -1 and calls nothing when the clock is not
    CLOCK_REALTIME; for CLOCK_REALTIME it converts the timespec to a
    timeval, calls settimeofday() on it once and returns its result. *)
Theorem clock_settime_override (now : timespec) (s : state W) :
  (forall clock : Z,
      clock <> CLOCK_REALTIME -> clock_settime clock now s = Done (-1) s) /\
  (let tv := UTI_TimespecToTimeval now in
   let '(r, w') := settimeofday tv (world s) in
   clock_settime CLOCK_REALTIME now s =
   Done r (Build_state (last_rtc_sync s) (trace s ++ [SetTimeOfDay tv r]) w')).
Proof.
  split.
  - intros clock H. unfold clock_settime. apply Z.eqb_neq in H.
    now rewrite H.
  - unfold clock_settime, do_settimeofday, bind, call, emit, ret. simpl.
    destruct (settimeofday _ _) as [r w']. reflexivity.
Qed.

End ResetClaims.

(** On the machine, a reset that went through leaves the kernel with the
    zero delta and an unchanged readiness to accept the next one. *)
Lemma sim_reset_settles (m m' : Sim.machine) :
  Sim.adjust_time (Some zero_timeval) m = (0, m') ->
  Sim.adjust_time (Some zero_timeval) m' = (0, m') /\
  Sim.kdelta m' = zero_timeval.
Proof.
  unfold Sim.adjust_time. destruct (Sim.adjtime_ret m =? 0) eqn:E.
  - intros H. injection H as <-. cbn [Sim.adjtime_ret Sim.kdelta].
    rewrite E. split; reflexivity.
  - intros H. injection H as H1 _. rewrite H1 in E. discriminate.
Qed.

(** C9: the reset makes exactly one adjtime() call, with the zero delta,
    and returns precisely when the kernel accepts it (it exits with
    "adjtime() failed" otherwise).  On a kernel for which the zero delta,
    once accepted, is accepted again and changes nothing further, two
    resets in succession end as one does: the same way, with the same
    driver data and the same outside -- the one the first adjtime() call
    left -- the trace alone showing the second call; when the first
    reset exits, the second is never run. *)
Theorem reset_adjtime_offset_idempotent
  {W : Type} {P : Platform W} (s : state W) (r : Z) (w1 : W) :
  PRV_AdjustTime (Some zero_timeval) (world s) = (r, w1) ->
  (r = 0 -> PRV_AdjustTime (Some zero_timeval) w1 = (0, w1)) ->
  let once := reset_adjtime_offset s in
  let twice := (reset_adjtime_offset ;; reset_adjtime_offset) s in
  (r = 0 ->
   once = Done tt (Build_state (last_rtc_sync s)
                     (trace s ++ [AdjustTime (Some zero_timeval) 0]) w1) /\
   twice = Done tt (Build_state (last_rtc_sync s)
                      (trace s ++ [AdjustTime (Some zero_timeval) 0;
                                   AdjustTime (Some zero_timeval) 0]) w1)) /\
  (r <> 0 ->
   once = Exited (Build_state (last_rtc_sync s)
                    (trace s ++ [AdjustTime (Some zero_timeval) r;
                                 Log LOGS_FATAL "adjtime() failed"]) w1) /\
   twice = once) /\
  same_post_state twice once.
Proof.
  intros E Again once twice. unfold once, twice, bind.
  rewrite (reset_adjtime_offset_unfold s), E.
  destruct (r =? 0) eqn:R.
  - apply Z.eqb_eq in R. subst r. specialize (Again eq_refl).
    rewrite reset_adjtime_offset_unfold. cbn [world trace last_rtc_sync].
    rewrite Again. cbn [Z.eqb]. rewrite <- app_assoc. cbn [app].
    split; [|split].
    + intros _. split; reflexivity.
    + intros N. exfalso. apply N. reflexivity.
    + cbn [same_post_state last_rtc_sync world]. auto.
  - apply Z.eqb_neq in R. split; [|split].
    + intros Z0. exfalso. apply R. exact Z0.
    + intros _. split; reflexivity.
    + cbn [same_post_state]. auto.
Qed.

(** The two resets on the machine, whose adjtime() replaces the
    outstanding delta: the kernel is left with the zero delta. *)
Lemma reset_adjtime_offset_idempotent_witness :
  let m := snd (Sim.adjust_time (Some {| tvl_sec := 3; tv_usec := 250 |})
                  Sim.boot) in
  let s := Sim.start (Sim.seconds 0) m in
  let m0 := snd (Sim.adjust_time (Some zero_timeval) m) in
  Sim.kdelta m = {| tvl_sec := 3; tv_usec := 250 |} /\
  Sim.kdelta m0 = zero_timeval /\
  reset_adjtime_offset s
  = Done tt (Build_state (Sim.seconds 0)
               [AdjustTime (Some zero_timeval) 0] m0) /\
  (reset_adjtime_offset ;; reset_adjtime_offset) s
  = Done tt (Build_state (Sim.seconds 0)
               [AdjustTime (Some zero_timeval) 0;
                AdjustTime (Some zero_timeval) 0] m0).
Proof.
  intros m s m0.
  assert (E : PRV_AdjustTime (Some zero_timeval) (world s) = (0, m0))
    by reflexivity.
  assert (Again : 0 = 0 -> PRV_AdjustTime (Some zero_timeval) m0 = (0, m0))
    by (intros _; exact (proj1 (sim_reset_settles m m0 E))).
  destruct (reset_adjtime_offset_idempotent s 0 m0 E Again) as [H _].
  split; [reflexivity|]. split; [reflexivity|]. exact (H eq_refl).
Defined.

Lemma clock_settime_override_witness :
  let s := Sim.start (Sim.seconds 0) Sim.boot in
  clock_settime 3 (Sim.seconds 5) s = Done (-1) s.
Proof.
  intros s.
  exact (proj1 (clock_settime_override (Sim.seconds 5) s) 3 ltac:(discriminate)).
Defined.

(** The override on the machine: CLOCK_REALTIME reaches settimeofday(). *)
Example clock_settime_realtime_run :
  clock_settime CLOCK_REALTIME {| tv_sec := 5; tv_nsec := 1999 |}
    (Sim.start (Sim.seconds 0) Sim.boot)
  = Done 0 (Build_state (Sim.seconds 0)
              [SetTimeOfDay {| tvl_sec := 5; tv_usec := 1 |} 0]
              (Sim.with_ktime {| tvl_sec := 5; tv_usec := 1 |} Sim.boot)).
Proof. reflexivity. Qed.

(** ** Rounding of the binary64 operations

    What [SpecFloat]'s multiplication, division and integer conversion
    compute, read on exact values: each result is within half a unit in
    the last place of the exact one. *)

Module Rounding.


Lemma digits2_pos_size (p : positive) : digits2_pos p = Pos.size p.
Proof. induction p; simpl; congruence. Qed.

Lemma Zdigits2_bounds (m : Z) :
  0 < m -> 2 ^ (Zdigits2 m - 1) <= m < 2 ^ Zdigits2 m.
Proof.
  destruct m as [|p|p]; try lia. intros _. unfold Zdigits2.
  rewrite digits2_pos_size.
  induction p as [p IH|p IH|].
  - cbn [Pos.size]. rewrite Pos2Z.inj_succ.
    pose proof (Pos2Z.inj_xI p) as E.
    replace (Z.succ (Z.pos (Pos.size p)) - 1) with (Z.succ (Z.pos (Pos.size p) - 1)) by lia.
    rewrite !Z.pow_succ_r by lia. lia.
  - cbn [Pos.size]. rewrite Pos2Z.inj_succ.
    pose proof (Pos2Z.inj_xO p) as E.
    replace (Z.succ (Z.pos (Pos.size p)) - 1) with (Z.succ (Z.pos (Pos.size p) - 1)) by lia.
    rewrite !Z.pow_succ_r by lia. lia.
  - simpl. lia.
Qed.

Lemma Zdigits2_nonneg (m : Z) : 0 <= Zdigits2 m.
Proof. destruct m; simpl; lia. Qed.

Lemma Zdigits2_upper (m : Z) : 0 <= m -> m < 2 ^ Zdigits2 m.
Proof.
  intros H. destruct (Z.eq_dec m 0) as [->|]; [simpl; lia|].
  apply Zdigits2_bounds. lia.
Qed.

(** [m < 2^k] caps the number of digits, [2^k <= m] bounds it below. *)
Lemma Zdigits2_le (m k : Z) : 0 <= m -> 0 <= k -> m < 2 ^ k -> Zdigits2 m <= k.
Proof.
  intros Hm Hk H. destruct (Z.eq_dec m 0) as [->|]; [simpl; lia|].
  destruct (Zdigits2_bounds m ltac:(lia)) as [L _].
  destruct (Z_le_gt_dec (Zdigits2 m) k) as [|G]; [assumption|].
  assert (2 ^ k <= 2 ^ (Zdigits2 m - 1)) by (apply Z.pow_le_mono_r; lia).
  lia.
Qed.

Lemma Zdigits2_gt (m k : Z) : 0 <= k -> 2 ^ k <= m -> k < Zdigits2 m.
Proof.
  intros Hk H.
  assert (0 < m) by (pose proof (Z.pow_pos_nonneg 2 k); lia).
  destruct (Zdigits2_bounds m ltac:(lia)) as [_ U].
  destruct (Z_lt_le_dec k (Zdigits2 m)) as [|G]; [assumption|].
  assert (2 ^ Zdigits2 m <= 2 ^ k)
    by (apply Z.pow_le_mono_r; [lia|assumption]).
  lia.
Qed.

Lemma shr_record_of_loc_ok (m : Z) (l : location) (N D : Z) :
  0 <= m -> loc_ok m l N D -> rec_ok (shr_record_of_loc m l) N D.
Proof.
  intros Hm H. unfold rec_ok.
  destruct l as [|[]]; simpl; auto.
Qed.

Lemma shr_1_ok (mrs : shr_record) (N D : Z) :
  0 < D -> rec_ok mrs N D -> rec_ok (shr_1 mrs) N (2 * D).
Proof.
  intros HD [Hm [Hr Hl]]. destruct mrs as [m r s]. cbn [shr_m] in *.
  unfold rec_ok, loc_ok.
  destruct m as [|[p|p|]|p]; try lia;
    try pose proof (Pos2Z.inj_xI p) as E1;
    try pose proof (Pos2Z.inj_xO p) as E2;
    destruct r, s; cbn [shr_1 orb shr_m loc_of_shr_record] in *;
    nia.
Qed.

Lemma iter_shr_1_ok (n : positive) (mrs : shr_record) (N D : Z) :
  0 < D -> rec_ok mrs N D ->
  rec_ok (iter_pos shr_1 n mrs) N (2 ^ Zpos n * D).
Proof.
  revert mrs D. induction n as [n IH|n IH|]; intros mrs D HD H; cbn [iter_pos].
  - replace (2 ^ Z.pos n~1 * D) with (2 ^ Z.pos n * (2 ^ Z.pos n * (2 * D))).
    + apply IH; [|apply IH; [lia|apply shr_1_ok; assumption]].
      pose proof (Z.pow_pos_nonneg 2 (Z.pos n)). nia.
    + replace (Z.pos n~1) with (Z.pos n + Z.pos n + 1) by lia.
      rewrite !Z.pow_add_r by lia. change (2 ^ 1) with 2. ring.
  - replace (2 ^ Z.pos n~0 * D) with (2 ^ Z.pos n * (2 ^ Z.pos n * D)).
    + apply IH; [|apply IH; assumption].
      pose proof (Z.pow_pos_nonneg 2 (Z.pos n)). nia.
    + replace (Z.pos n~0) with (Z.pos n + Z.pos n) by lia.
      rewrite !Z.pow_add_r by lia. ring.
  - change (2 ^ 1) with 2. apply shr_1_ok; assumption.
Qed.

Lemma shr_ok (mrs : shr_record) (e n : Z) (N D : Z) :
  0 < D -> rec_ok mrs N D ->
  let '(mrs', e') := shr mrs e n in
  e' = e + Z.max 0 n /\ rec_ok mrs' N (2 ^ Z.max 0 n * D).
Proof.
  intros HD H. destruct n as [|p|p]; cbn [shr].
  - split; [lia|]. change (2 ^ Z.max 0 0) with 1. now rewrite Z.mul_1_l.
  - replace (Z.max 0 (Z.pos p)) with (Z.pos p) by lia.
    split; [reflexivity|]. now apply iter_shr_1_ok.
  - replace (Z.max 0 (Z.neg p)) with 0 by lia.
    split; [lia|]. change (2 ^ 0) with 1. now rewrite Z.mul_1_l.
Qed.

Lemma round_nearest_even_ok (mrs : shr_record) (N D : Z) :
  0 < D -> rec_ok mrs N D ->
  let m1 := round_nearest_even (shr_m mrs) (loc_of_shr_record mrs) in
  shr_m mrs <= m1 <= shr_m mrs + 1 /\
  - D <= 2 * (m1 * D - N) <= D.
Proof.
  intros HD [Hm [Hr Hl]]. destruct mrs as [m r s]. cbn [shr_m] in *.
  destruct r, s; cbn [loc_of_shr_record round_nearest_even] in *;
    try destruct (Z.even m); nia.
Qed.

Lemma fexp_eq (k : Z) : fexp prec emax k = Z.max (k - 53) (-1074).
Proof. reflexivity. Qed.

Lemma shr_nonpos (mrs : shr_record) (e n : Z) :
  n <= 0 -> shr mrs e n = (mrs, e).
Proof. destruct n; [reflexivity|lia|reflexivity]. Qed.

Lemma shr_carry (e : Z) :
  shr (shr_record_of_loc (2 ^ prec) loc_Exact) e 1
  = ({| shr_m := 2 ^ (prec - 1); shr_r := false; shr_s := false |}, e + 1).
Proof. reflexivity. Qed.

Lemma binary_round_aux_spec (sx : bool) (mx ex : Z) (lx : location) (N D : Z) :
  0 < D -> 0 <= mx -> loc_ok mx lx N D ->
  Zdigits2 mx + ex <= 1000 -> ex <= 900 ->
  let e' := Z.max ex (fexp prec emax (Zdigits2 mx + ex)) in
  exists m1,
    0 <= m1 <= 2 ^ prec /\
    - (2 ^ (e' - ex) * D) <= 2 * (m1 * (2 ^ (e' - ex) * D) - N)
                          <= 2 ^ (e' - ex) * D /\
    rounds_to (binary_round_aux prec emax sx mx ex lx) sx m1 e'.
Proof.
  intros HD Hmx Hloc Hd Hex e'.
  unfold binary_round_aux, shr_fexp.
  set (d := Zdigits2 mx) in *.
  set (n := fexp prec emax (d + ex) - ex).
  pose proof (fexp_eq (d + ex)) as Fe.
  assert (Hk : Z.max 0 n = e' - ex) by (unfold n, e'; lia).
  pose proof (shr_ok (shr_record_of_loc mx lx) ex n N D HD
                (shr_record_of_loc_ok mx lx N D Hmx Hloc)) as S1.
  destruct (shr (shr_record_of_loc mx lx) ex n) as [mrs' e1].
  destruct S1 as [He1 R1]. rewrite Hk in He1, R1.
  assert (Ee : e1 = e') by lia. clear He1. subst e1.
  set (k := e' - ex) in *.
  assert (Hk0 : 0 <= k) by lia.
  pose proof (Z.pow_pos_nonneg 2 k ltac:(lia) Hk0) as P2k.
  set (D' := 2 ^ k * D) in *.
  assert (HD' : 0 < D') by (unfold D'; nia).
  destruct (round_nearest_even_ok mrs' N D' HD' R1) as [Hm1 Herr].
  set (m1 := round_nearest_even (shr_m mrs') (loc_of_shr_record mrs')) in *.
  destruct R1 as [Hm' [Hr' _]].
  set (m' := shr_m mrs') in *.
  (* the shifted mantissa has at most [prec] digits *)
  assert (Hlt : m' < 2 ^ prec).
  { pose proof (Zdigits2_upper mx Hmx) as U. fold d in U.
    pose proof (Zdigits2_nonneg mx) as Dn. fold d in Dn.
    destruct Hloc as [[_ HN] _].
    assert (d <= k + prec) by (unfold k, e', prec in *; lia).
    assert (2 ^ d <= 2 ^ (k + prec)) by (apply Z.pow_le_mono_r; lia).
    rewrite Z.pow_add_r in * by (unfold prec; lia).
    assert (m' * 2 ^ k * D < 2 ^ k * 2 ^ prec * D) by (unfold D' in *; nia).
    nia. }
  exists m1. split; [lia|]. split; [lia|].
  assert (He' : -1074 <= e' <= 947) by (unfold e'; lia).
  destruct (Z.eq_dec m1 0) as [Hz|Hnz].
  - left. split; [assumption|]. rewrite Hz.
    rewrite shr_nonpos by (cbn [Zdigits2]; rewrite fexp_eq; lia).
    reflexivity.
  - destruct (Z.eq_dec m1 (2 ^ prec)) as [C|NC].
    + right. rewrite C.
      replace (fexp prec emax (Zdigits2 (2 ^ prec) + e') - e') with 1
        by (change (Zdigits2 (2 ^ prec)) with 54; rewrite fexp_eq; lia).
      rewrite shr_carry. cbn [shr_m].
      change (2 ^ (prec - 1)) with (Z.pos 4503599627370496).
      replace (e' + 1 <=? emax - prec) with true
        by (symmetry; apply Z.leb_le; unfold emax, prec; lia).
      exists 4503599627370496%positive, (e' + 1).
      split; [reflexivity|]. split; [lia|]. split.
      * replace (e' + 1 - e') with 1 by lia. reflexivity.
      * reflexivity.
    + right.
      assert (Hd1 : Zdigits2 m1 <= prec)
        by (apply Zdigits2_le; unfold prec in *; lia).
      rewrite shr_nonpos by (rewrite fexp_eq; unfold prec in *; lia).
      cbn [shr_record_of_loc shr_m].
      destruct m1 as [|p|p] eqn:E1; try lia.
      replace (e' <=? emax - prec) with true
        by (symmetry; apply Z.leb_le; unfold emax, prec; lia).
      exists p, e'. split; [reflexivity|]. split; [lia|]. split.
      * rewrite Z.sub_diag. simpl. lia.
      * unfold prec in *. lia.
Qed.

Lemma pow2_pos (e : Z) : (0 < pow2 e)%Q.
Proof. apply Qpower_0_lt. reflexivity. Qed.

Lemma pow2_add (a b : Z) : (pow2 (a + b) == pow2 a * pow2 b)%Q.
Proof. apply Qpower_plus. discriminate. Qed.

Lemma pow2_Z (a : Z) : 0 <= a -> (pow2 a == inject_Z (2 ^ a))%Q.
Proof. intros H. unfold pow2. now rewrite Zpower_Qpower. Qed.

Lemma pow2_le (a b : Z) : a <= b -> (pow2 a <= pow2 b)%Q.
Proof.
  intros H. unfold pow2. apply Qpower_le_compat_l; [assumption|].
  unfold Qle; simpl; lia.
Qed.

Lemma pow2_lt_inv (a b : Z) : (pow2 a < pow2 b)%Q -> a < b.
Proof.
  intros H. destruct (Z_lt_le_dec a b) as [|G]; [assumption|].
  apply pow2_le in G. lra.
Qed.

Lemma inject_Z_sub (x y : Z) : inject_Z (x - y) = (inject_Z x - inject_Z y)%Q.
Proof.
  unfold Z.sub, Qminus. now rewrite inject_Z_plus, inject_Z_opp.
Qed.

Lemma signedQ_abs (s : bool) (a b : Q) :
  (Qabs (signedQ s a - signedQ s b) == Qabs (a - b))%Q.
Proof.
  destruct s; cbn [signedQ]; [|reflexivity].
  rewrite <- (Qabs_opp (a - b)). apply Qabs_wd. ring.
Qed.

Lemma rounds_to_value (r : double) (sx : bool) (m1 e' : Z) :
  rounds_to r sx m1 e' ->
  (to_Q r == signedQ sx (inject_Z m1 * pow2 e'))%Q.
Proof.
  intros [[-> ->]|[mR [eR [-> [He [Hm _]]]]]].
  - cbn [to_Q]. destruct sx; cbn [signedQ]; ring.
  - cbn [to_Q]. rewrite <- Hm.
    assert (E : (pow2 eR == inject_Z (2 ^ (eR - e')) * pow2 e')%Q).
    { replace eR with ((eR - e') + e') at 1 by lia.
      rewrite pow2_add, (pow2_Z (eR - e')) by lia. reflexivity. }
    rewrite inject_Z_mult.
    destruct sx; cbn [signedQ]; rewrite E; ring.
Qed.

(** The rounding specification read on values: the result is within half
    a unit in the last place of the exact value [N / D * 2^ex]. *)
Lemma binary_round_aux_value
  (sx : bool) (mx ex : Z) (lx : location) (N D : Z) (x : Q) :
  0 < D -> 0 <= mx -> loc_ok mx lx N D ->
  Zdigits2 mx + ex <= 1000 -> ex <= 900 ->
  (x == inject_Z N / inject_Z D * pow2 ex)%Q ->
  let e' := Z.max ex (fexp prec emax (Zdigits2 mx + ex)) in
  exists m1,
    0 <= m1 <= 2 ^ prec /\
    rounds_to (binary_round_aux prec emax sx mx ex lx) sx m1 e' /\
    (- pow2 e' <= 2 * (inject_Z m1 * pow2 e' - x) <= pow2 e')%Q.
Proof.
  intros HD Hmx Hloc Hd Hex Hx e'.
  destruct (binary_round_aux_spec sx mx ex lx N D HD Hmx Hloc Hd Hex)
    as [m1 [Hm1 [Herr Hr]]].
  fold e' in Herr, Hr.
  exists m1. split; [assumption|]. split; [assumption|].
  set (k := e' - ex) in *.
  assert (Hk : 0 <= k) by (unfold k, e'; lia).
  assert (E : (pow2 e' == inject_Z (2 ^ k) * pow2 ex)%Q).
  { replace e' with (k + ex) by (unfold k; lia).
    rewrite pow2_add, pow2_Z by assumption. reflexivity. }
  pose proof (pow2_pos ex) as Pex.
  assert (DQ : (0 < inject_Z D)%Q) by (rewrite Zlt_Qlt in HD; exact HD).
  destruct Herr as [L U].
  set (K := inject_Z (2 ^ k)) in *. set (DD := inject_Z D) in *.
  set (NN := inject_Z N) in *. set (M := inject_Z m1) in *.
  assert (LQ : (- (K * DD) <= 2 * (M * (K * DD) - NN))%Q).
  { unfold K, DD, NN, M. change 2%Q with (inject_Z 2).
    rewrite <- !inject_Z_mult, <- inject_Z_sub, <- inject_Z_opp,
      <- inject_Z_mult, <- Zle_Qle. exact L. }
  assert (UQ : (2 * (M * (K * DD) - NN) <= K * DD)%Q).
  { unfold K, DD, NN, M. change 2%Q with (inject_Z 2).
    rewrite <- !inject_Z_mult, <- inject_Z_sub, <- inject_Z_mult, <- Zle_Qle.
    exact U. }
  set (t := (NN / DD)%Q).
  assert (Ht : (t * DD == NN)%Q) by (unfold t; field; lra).
  rewrite Hx, E. fold t.
  set (pe := pow2 ex) in *.
  assert (Eq1 : ((M * K - t) * DD == M * (K * DD) - NN)%Q)
    by (rewrite <- Ht; ring).
  rewrite <- Eq1 in LQ, UQ.
  set (u := (M * K - t)%Q) in *.
  assert (C1 : (0 <= 2 * u + K)%Q).
  { destruct (Qlt_le_dec (2 * u + K) 0) as [c|c]; [|exact c].
    clearbody u K DD. nra. }
  assert (C2 : (0 <= K - 2 * u)%Q).
  { destruct (Qlt_le_dec (K - 2 * u) 0) as [c|c]; [|exact c].
    clearbody u K DD. nra. }
  assert (F : (M * (K * pe) - t * pe == u * pe)%Q) by (unfold u; ring).
  rewrite F. clearbody u pe K. clear - C1 C2 Pex. split; nra.
Qed.

Lemma inject_Z_nonneg (z : Z) : 0 <= z -> (0 <= inject_Z z)%Q.
Proof. intros H. change 0%Q with (inject_Z 0). now rewrite <- Zle_Qle. Qed.

Lemma inject_Z_pos (z : Z) : 0 < z -> (0 < inject_Z z)%Q.
Proof. intros H. change 0%Q with (inject_Z 0). now rewrite <- Zlt_Qlt. Qed.

Lemma loc_ok_exact (m : Z) : loc_ok m loc_Exact m 1.
Proof. unfold loc_ok. lia. Qed.

(** Product of two finite doubles. *)
Lemma dmul_value (sx : bool) (mx : positive) (ex : Z)
                 (sy : bool) (my : positive) (ey : Z) :
  Zdigits2 (Zpos (mx * my)) + (ex + ey) <= 1000 -> ex + ey <= 900 ->
  let e' := Z.max (ex + ey)
              (fexp prec emax (Zdigits2 (Zpos (mx * my)) + (ex + ey))) in
  exists m1,
    0 <= m1 <= 2 ^ prec /\
    rounds_to (dmul (S754_finite sx mx ex) (S754_finite sy my ey))
              (xorb sx sy) m1 e' /\
    (- pow2 e' <= 2 * (inject_Z m1 * pow2 e'
                       - inject_Z (Zpos mx) * inject_Z (Zpos my) * pow2 (ex + ey))
     <= pow2 e')%Q.
Proof.
  intros Hd He e'. unfold dmul. cbn [SFmul].
  apply (binary_round_aux_value (xorb sx sy) (Zpos (mx * my)) (ex + ey)
           loc_Exact (Zpos (mx * my)) 1); try lia.
  - apply loc_ok_exact.
  - rewrite Pos2Z.inj_mul, inject_Z_mult. field.
Qed.

Lemma pow2_neg_mul (p : positive) :
  (pow2 (Z.neg p) * inject_Z (2 ^ Z.pos p) == 1)%Q.
Proof.
  rewrite <- (pow2_Z (Z.pos p)) by lia. rewrite <- pow2_add.
  replace (Z.neg p + Z.pos p) with 0 by lia. reflexivity.
Qed.

(** The integer part of a positive finite double. *)
Lemma trunc_magnitude_spec (m : positive) (e : Z) :
  let Ka := trunc_magnitude m e in
  let v := (inject_Z (Zpos m) * pow2 e)%Q in
  0 <= Ka /\
  (inject_Z Ka <= v)%Q /\ (v < inject_Z Ka + 1)%Q /\
  (0 <= e -> (inject_Z Ka == v)%Q) /\
  (Zpos m < 2 ^ prec ->
   exists a b, 0 <= b /\ 0 <= a < 2 ^ prec /\ Ka = a * 2 ^ b).
Proof.
  intros Ka v. unfold Ka, v. destruct e as [|p|p]; cbn [trunc_magnitude].
  - change (pow2 0) with 1%Q.
    repeat split; try lia; try lra.
    + intros H. exists (Zpos m), 0. split; [lia|]. split; [lia|].
      change (2 ^ 0) with 1. lia.
  - rewrite pow2_Z by lia. rewrite <- inject_Z_mult.
    pose proof (Z.pow_pos_nonneg 2 (Z.pos p) ltac:(lia) ltac:(lia)).
    repeat split; try nia; try lra.
    + intros H0. exists (Zpos m), (Z.pos p). lia.
  - pose proof (Z.pow_pos_nonneg 2 (Z.pos p) ltac:(lia) ltac:(lia)) as Pp.
    pose proof (Z.div_mod (Zpos m) (2 ^ Z.pos p) ltac:(lia)) as DM.
    pose proof (Z.mod_pos_bound (Zpos m) (2 ^ Z.pos p) Pp) as MB.
    set (q := Zpos m / 2 ^ Z.pos p) in *.
    set (r := Zpos m mod 2 ^ Z.pos p) in *.
    assert (Hq : 0 <= q) by (unfold q; apply Z.div_pos; lia).
    pose proof (pow2_neg_mul p) as I.
    pose proof (pow2_pos (Z.neg p)) as Pn.
    set (t := pow2 (Z.neg p)) in *.
    set (T := inject_Z (2 ^ Z.pos p)) in *.
    assert (EQ : (inject_Z (Z.pos m) == T * inject_Z q + inject_Z r)%Q).
    { unfold T. rewrite <- inject_Z_mult, <- inject_Z_plus, DM. reflexivity. }
    assert (R0 : (0 <= inject_Z r)%Q) by (apply inject_Z_nonneg; lia).
    assert (R1 : (inject_Z r < T)%Q) by (unfold T; rewrite <- Zlt_Qlt; lia).
    assert (V : (inject_Z (Z.pos m) * t == inject_Z q + inject_Z r * t)%Q).
    { rewrite EQ. transitivity ((t * T) * inject_Z q + inject_Z r * t)%Q;
        [ring | rewrite I; ring]. }
    split; [assumption|]. split; [|split; [|split]].
    + rewrite V. clearbody t T q r. nra.
    + rewrite V. assert (inject_Z r * t < T * t)%Q by (clearbody t T q r; nra).
      assert (T * t == 1)%Q by (rewrite <- I; ring).
      clearbody t T q r. lra.
    + intros; lia.
    + intros Hm. exists q, 0. split; [lia|]. change (2 ^ 0) with 1.
      split; [|lia]. split; [assumption|]. unfold prec in *. nia.
Qed.

Lemma iter_xO_pow (m d : positive) :
  Zpos (Pos.iter xO m d) = Zpos m * 2 ^ Zpos d.
Proof.
  induction d as [|d IH] using Pos.peano_ind.
  - cbn [Pos.iter]. rewrite Pos2Z.inj_xO. change (2 ^ 1) with 2. lia.
  - rewrite Pos.iter_succ, Pos2Z.inj_xO, IH, Pos2Z.inj_succ, Z.pow_succ_r by lia.
    ring.
Qed.

Lemma shl_align_spec (mx : positive) (ex ex' : Z) :
  let '(mz, ez) := shl_align mx ex ex' in
  ez = Z.min ex ex' /\ Zpos mz = Zpos mx * 2 ^ (ex - ez).
Proof.
  unfold shl_align. destruct (ex' - ex) as [|d|d] eqn:E.
  - split; [lia|]. rewrite Z.sub_diag. change (2 ^ 0) with 1. lia.
  - split; [lia|]. rewrite Z.sub_diag. change (2 ^ 0) with 1. lia.
  - split; [lia|]. rewrite iter_xO_pow.
    replace (ex - ex') with (Z.pos d) by lia. reflexivity.
Qed.

(** An integer [a * 2^b] with [a] below [2^prec] converts exactly. *)
Lemma binary_round_exact (s : bool) (p : positive) (a b : Z) :
  0 <= b -> 0 < a < 2 ^ prec -> Zpos p = a * 2 ^ b -> b <= 900 ->
  exists mX eX,
    binary_round prec emax s p 0 = S754_finite s mX eX /\
    (inject_Z (Zpos mX) * pow2 eX == inject_Z (Zpos p))%Q.
Proof.
  intros Hb Ha Hp Hb9. unfold binary_round.
  pose proof (shl_align_spec p 0 (fexp prec emax (Zpos (digits2_pos p) + 0))) as SA.
  destruct (shl_align p 0 _) as [mz ez]. destruct SA as [Hez Hmz].
  change (Zpos (digits2_pos p)) with (Zdigits2 (Zpos p)) in Hez.
  rewrite Z.add_0_r in Hez.
  set (dp := Zdigits2 (Zpos p)) in *.
  assert (Hdp : dp <= prec + b).
  { apply Zdigits2_le; [lia|unfold prec; lia|].
    rewrite Z.pow_add_r by (unfold prec; lia).
    pose proof (Z.pow_pos_nonneg 2 b ltac:(lia) Hb). nia. }
  pose proof (fexp_eq dp) as Fe. pose proof (Zdigits2_nonneg (Zpos p)) as Dn.
  fold dp in Dn.
  assert (Dp1 : 1 <= dp) by (unfold dp; cbn [Zdigits2]; lia).
  assert (Hez0 : ez <= 0) by lia.
  (* digits of the aligned mantissa *)
  assert (Hdz : Zdigits2 (Zpos mz) + ez = dp).
  { assert (L : dp - ez - 1 < Zdigits2 (Zpos mz)).
    { apply Zdigits2_gt; [lia|]. rewrite Hmz.
      destruct (Zdigits2_bounds (Zpos p) ltac:(lia)) as [Lo _]. fold dp in Lo.
      replace (dp - ez - 1) with ((dp - 1) + (0 - ez)) by lia.
      rewrite Z.pow_add_r by lia.
      pose proof (Z.pow_pos_nonneg 2 (0 - ez) ltac:(lia) ltac:(lia)). nia. }
    assert (U : Zdigits2 (Zpos mz) <= dp - ez).
    { apply Zdigits2_le; [lia|lia|]. rewrite Hmz.
      destruct (Zdigits2_bounds (Zpos p) ltac:(lia)) as [_ Up]. fold dp in Up.
      replace (dp - ez) with (dp + (0 - ez)) by lia.
      rewrite Z.pow_add_r by lia.
      pose proof (Z.pow_pos_nonneg 2 (0 - ez) ltac:(lia) ltac:(lia)). nia. }
    lia. }
  destruct (binary_round_aux_spec s (Zpos mz) ez loc_Exact (Zpos mz) 1
              ltac:(lia) ltac:(lia) (loc_ok_exact _)
              ltac:(unfold prec in *; lia) ltac:(lia))
    as [m1 [Hm1 [Herr Hr]]].
  rewrite Hdz in Herr, Hr.
  set (e' := Z.max ez (fexp prec emax dp)) in *.
  set (k := e' - ez) in *.
  assert (Hk : 0 <= k <= b - ez) by (unfold k, e', prec in *; lia).
  (* the aligned mantissa is a multiple of 2^k *)
  assert (Hdiv : Zpos mz = (a * 2 ^ (b - ez - k)) * 2 ^ k).
  { rewrite Hmz, Hp, <- !Z.mul_assoc, <- !Z.pow_add_r by lia.
    f_equal. f_equal. lia. }
  set (c := a * 2 ^ (b - ez - k)) in *.
  pose proof (Z.pow_pos_nonneg 2 k ltac:(lia) ltac:(lia)) as Pk.
  rewrite !Z.mul_1_r in Herr.
  assert (Em : m1 = c) by nia.
  destruct Hr as [[Hz0 _]|[mR [eR [-> [He [HmR _]]]]]].
  - exfalso.
    pose proof (Z.pow_pos_nonneg 2 (b - ez - k) ltac:(lia) ltac:(lia)).
    unfold c in Em. nia.
  - exists mR, eR. split; [reflexivity|].
    assert (E1 : (pow2 eR == inject_Z (2 ^ (eR - e')) * inject_Z (2 ^ k) * pow2 ez)%Q).
    { replace eR with ((eR - e') + (k + ez)) at 1 by (unfold k; lia).
      rewrite !pow2_add, (pow2_Z (eR - e')), (pow2_Z k) by lia. ring. }
    assert (Z1 : (pow2 ez * inject_Z (2 ^ (0 - ez)) == 1)%Q).
    { rewrite <- (pow2_Z (0 - ez)), <- pow2_add by lia.
      replace (ez + (0 - ez)) with 0 by lia. reflexivity. }
    assert (Zp : (inject_Z (Zpos p) == inject_Z (Zpos mz) * pow2 ez)%Q).
    { rewrite Hmz, inject_Z_mult.
      transitivity (inject_Z (Z.pos p) * (pow2 ez * inject_Z (2 ^ (0 - ez))))%Q;
        [rewrite Z1; ring | ring]. }
    rewrite Zp, E1, Hdiv, <- Em, <- HmR, !inject_Z_mult. ring.
Qed.

Lemma new_location_ok (q r D N : Z) :
  0 < D -> 0 <= r < D -> N = D * q + r -> loc_ok q (new_location D r) N D.
Proof.
  intros HD Hr HN. unfold loc_ok. split; [nia|].
  unfold new_location, new_location_even, new_location_odd.
  destruct (Z.even D) eqn:Ev.
  - destruct (Z.eqb_spec r 0) as [->|Hr0]; [lia|].
    destruct (Z.compare_spec (2 * r) D); nia.
  - assert (Od : Z.odd D = true) by (rewrite <- Z.negb_even, Ev; reflexivity).
    apply Z.odd_spec in Od. destruct Od as [h Hh].
    destruct (Z.eqb_spec r 0) as [->|Hr0]; [lia|].
    destruct (Z.compare_spec (2 * r + 1) D); nia.
Qed.

Lemma fexp_mono (a b : Z) : a <= b -> fexp prec emax a <= fexp prec emax b.
Proof. intros H. rewrite !fexp_eq. lia. Qed.

(** A positive value below [2^k] has its digits and exponent sum to at
    most [k]. *)
Lemma digits_exp_le (m e k : Z) :
  0 < m -> (inject_Z m * pow2 e < pow2 k)%Q -> Zdigits2 m + e <= k.
Proof.
  intros Hm H.
  destruct (Zdigits2_bounds m Hm) as [Lo _].
  pose proof (Zdigits2_nonneg m) as Dn.
  assert (1 <= Zdigits2 m).
  { destruct m; try lia. cbn [Zdigits2]. lia. }
  assert (L : (pow2 (Zdigits2 m - 1) <= inject_Z m)%Q).
  { rewrite pow2_Z by lia. rewrite <- Zle_Qle. exact Lo. }
  assert (P : (pow2 (Zdigits2 m - 1 + e) < pow2 k)%Q).
  { rewrite pow2_add. pose proof (pow2_pos e).
    set (a := pow2 (Zdigits2 m - 1)) in *. set (b := pow2 e) in *.
    set (c := inject_Z m) in *. clearbody a b c. nra. }
  apply pow2_lt_inv in P. lia.
Qed.

Lemma shifted_mantissa (m : positive) (s : Z) :
  0 <= s ->
  match s with
  | 0 => Z.pos m
  | Z.pos _ => Z.shiftl (Z.pos m) s
  | Z.neg _ => 0
  end = Zpos m * 2 ^ s.
Proof.
  intros H. destruct s as [|p|p]; [|rewrite Z.shiftl_mul_pow2 by lia|]; lia.
Qed.

(** Quotient of two finite doubles, when it is below [2^k]. *)
Lemma ddiv_value (sx : bool) (mx : positive) (ex : Z)
                 (sy : bool) (my : positive) (ey : Z) (k : Z) :
  let X := (inject_Z (Zpos mx) * pow2 ex)%Q in
  let Y := (inject_Z (Zpos my) * pow2 ey)%Q in
  (X < pow2 k * Y)%Q -> k <= 900 ->
  exists m1 e',
    0 <= m1 <= 2 ^ prec /\
    rounds_to (ddiv (S754_finite sx mx ex) (S754_finite sy my ey))
              (xorb sx sy) m1 e' /\
    e' <= fexp prec emax k /\
    (- (pow2 e' * Y) <= 2 * (inject_Z m1 * pow2 e' * Y - X) <= pow2 e' * Y)%Q.
Proof.
  intros X Y HXY Hk. unfold ddiv. cbn [SFdiv]. unfold SFdiv_core_binary.
  set (d1 := Zdigits2 (Zpos mx)). set (d2 := Zdigits2 (Zpos my)).
  set (e_in := Z.min (fexp prec emax (d1 + ex - (d2 + ey))) (ex - ey)).
  set (s := ex - ey - e_in).
  assert (Hs : 0 <= s) by (unfold s, e_in; lia).
  set (m' := match s with
             | 0 => Z.pos mx
             | Z.pos _ => Z.shiftl (Z.pos mx) s
             | Z.neg _ => 0
             end).
  assert (Hm' : m' = Zpos mx * 2 ^ s) by (apply shifted_mantissa; exact Hs).
  clearbody m'.
  pose proof (Z_div_mod m' (Zpos my) ltac:(lia)) as DM.
  destruct (Z.div_eucl m' (Z.pos my)) as [q r]. destruct DM as [DM Hr].
  pose proof (Z.pow_pos_nonneg 2 s ltac:(lia) Hs) as Ps.
  assert (Hm0 : 0 <= m') by (rewrite Hm'; apply Z.mul_nonneg_nonneg; lia).
  assert (Hq : 0 <= q).
  { destruct (Z_lt_le_dec q 0) as [c|c]; [exfalso|exact c].
    assert (Zpos my * q <= - Zpos my) by nia. lia. }
  (* magnitudes *)
  pose proof (pow2_pos ex) as Pex. pose proof (pow2_pos ey) as Pey.
  pose proof (pow2_pos e_in) as Pin. pose proof (pow2_pos k) as Pk.
  assert (MX : (0 < inject_Z (Zpos mx))%Q) by (apply inject_Z_pos; lia).
  assert (MY : (0 < inject_Z (Zpos my))%Q) by (apply inject_Z_pos; lia).
  assert (YP : (0 < Y)%Q) by (unfold Y; nra).
  assert (Eex : (pow2 ex == inject_Z (2 ^ s) * pow2 e_in * pow2 ey)%Q).
  { replace ex with (s + e_in + ey) at 1 by (unfold s; lia).
    rewrite !pow2_add, pow2_Z by lia. reflexivity. }
  (* X = m' * 2^e_in * 2^ey *)
  assert (EX : (X == inject_Z m' * pow2 e_in * pow2 ey)%Q).
  { unfold X. rewrite Eex, Hm', inject_Z_mult. ring. }
  (* the two digit counts are bounded through the value of the quotient *)
  assert (Hd12 : d1 + ex - (d2 + ey) <= k).
  { assert (U2 : (inject_Z (Zpos my) < pow2 d2)%Q).
    { rewrite pow2_Z by apply Zdigits2_nonneg. rewrite <- Zlt_Qlt.
      apply Zdigits2_upper. lia. }
    assert (B : (inject_Z (Zpos mx) * pow2 (ex - (k + d2 + ey)) < pow2 0)%Q).
    { change (pow2 0) with 1%Q.
      assert (I : (pow2 (ex - (k + d2 + ey)) * (pow2 k * pow2 d2 * pow2 ey)
                   == pow2 ex)%Q).
      { rewrite <- !pow2_add. replace (ex - (k + d2 + ey) + (k + d2 + ey)) with ex by lia.
        reflexivity. }
      pose proof (pow2_pos (ex - (k + d2 + ey))) as Pz.
      pose proof (pow2_pos d2) as Pd2.
      unfold X, Y in HXY.
      set (z := pow2 (ex - (k + d2 + ey))) in *.
      set (a := inject_Z (Zpos mx)) in *. set (b := inject_Z (Zpos my)) in *.
      set (pk := pow2 k) in *. set (pd := pow2 d2) in *.
      set (py := pow2 ey) in *. set (px := pow2 ex) in *.
      assert (T0 : (b * py < pd * py)%Q)
        by (apply Qmult_lt_compat_r; assumption).
      assert (T0' : (pk * (b * py) < pk * (pd * py))%Q).
      { rewrite !(Qmult_comm pk). apply Qmult_lt_compat_r; assumption. }
      assert (T1 : (a * px < pk * pd * py)%Q).
      { apply Qlt_trans with (pk * (b * py))%Q; [exact HXY|].
        rewrite <- Qmult_assoc. exact T0'. }
      rewrite <- I in T1.
      assert (T2 : (0 < pk * pd * py)%Q).
      { apply Qmult_lt_0_compat; [apply Qmult_lt_0_compat|]; assumption. }
      set (w := (pk * pd * py)%Q) in *.
      destruct (Qlt_le_dec (a * z) 1) as [c|c]; [exact c|].
      exfalso. clearbody a z w. nra. }
    apply digits_exp_le in B; [|lia]. fold d1 in B. lia. }
  assert (Hein : e_in <= fexp prec emax k).
  { unfold e_in. pose proof (fexp_mono _ _ Hd12). lia. }
  assert (Hdq : fexp prec emax (Zdigits2 q + e_in) <= fexp prec emax k).
  { destruct (Z.eq_dec q 0) as [->|Hq0].
    - cbn [Zdigits2]. rewrite !fexp_eq in *. lia.
    - apply fexp_mono. apply digits_exp_le; [lia|].
      assert (QM : (inject_Z q * inject_Z (Zpos my) <= inject_Z m')%Q).
      { rewrite <- inject_Z_mult, <- Zle_Qle. nia. }
      rewrite EX in HXY. unfold Y in HXY.
      set (a := inject_Z q) in *. set (b := inject_Z (Zpos my)) in *.
      set (c := inject_Z m') in *. set (pin := pow2 e_in) in *.
      set (py := pow2 ey) in *. set (pk := pow2 k) in *.
      assert (T : (a * pin * (b * py) < pk * (b * py))%Q).
      { assert (a * b * (pin * py) <= c * (pin * py))%Q.
        { apply Qmult_le_compat_r; [exact QM|].
          apply Qlt_le_weak, Qmult_lt_0_compat; assumption. }
        clearbody a b c pin py pk. nra. }
      assert (BP : (0 < b * py)%Q) by (apply Qmult_lt_0_compat; assumption).
      set (w := (b * py)%Q) in *.
      destruct (Qlt_le_dec (a * pin) pk) as [h|h]; [exact h|].
      exfalso. clearbody a pin w pk. nra. }
  destruct (binary_round_aux_value (xorb sx sy) q e_in
              (new_location (Zpos my) r) m' (Zpos my)
              (inject_Z m' / inject_Z (Zpos my) * pow2 e_in)%Q
              ltac:(lia) Hq
              (new_location_ok q r (Zpos my) m' ltac:(lia) Hr DM))
    as [m1 [Hm1 [Hr1 Hv]]].
  { destruct (Z.eq_dec q 0) as [->|Hq0].
    - cbn [Zdigits2]. rewrite fexp_eq in Hein. lia.
    - rewrite !fexp_eq in *. lia. }
  { rewrite fexp_eq in Hein. lia. }
  { reflexivity. }
  set (e' := Z.max e_in (fexp prec emax (Zdigits2 q + e_in))) in *.
  exists m1, e'. split; [assumption|]. split; [assumption|].
  split; [unfold e'; lia|].
  set (t := (inject_Z m' / inject_Z (Z.pos my))%Q) in *.
  assert (Ht : (t * inject_Z (Zpos my) == inject_Z m')%Q)
    by (unfold t; field; lra).
  assert (XY : (X == t * pow2 e_in * Y)%Q).
  { rewrite EX. unfold Y. rewrite <- Ht. ring. }
  rewrite XY.
  set (u := (inject_Z m1 * pow2 e' - t * pow2 e_in)%Q) in *.
  assert (F : (inject_Z m1 * pow2 e' * Y - t * pow2 e_in * Y == u * Y)%Q)
    by (unfold u; ring).
  rewrite F. destruct Hv as [L U].
  set (pe := pow2 e') in *.
  clearbody u pe Y. clear - L U YP. split; nra.
Qed.

Lemma MAX_FREQ_value : MAX_FREQ = S754_finite false 6871947673600000 (-36).
Proof. vm_compute. reflexivity. Qed.

Lemma freq_scale_value : freq_scale = S754_finite false 8796093022208000 (-11).
Proof. vm_compute. reflexivity. Qed.

Lemma SFleb_pos_bound (m : positive) (e : Z) (M : positive) (E : Z) :
  SFleb (S754_finite false m e) (S754_finite false M E) = true ->
  e < E \/ (e = E /\ Zpos m <= Zpos M).
Proof.
  unfold SFleb, SFcompare.
  destruct (Z.compare_spec e E) as [->|L|G]; try discriminate.
  - change (Pos.compare_cont Eq m M) with (Pos.compare m M).
    destruct (Pos.compare_spec m M); try discriminate; intros _; right; lia.
  - intros _. left. assumption.
Qed.

Lemma SFleb_neg_bound (m : positive) (e : Z) (M : positive) (E : Z) :
  SFleb (S754_finite true M E) (S754_finite true m e) = true ->
  e < E \/ (e = E /\ Zpos m <= Zpos M).
Proof.
  unfold SFleb, SFcompare.
  destruct (Z.compare_spec E e) as [->|L|G]; try discriminate.
  - change (Pos.compare_cont Eq M m) with (Pos.compare M m).
    destruct (Pos.compare_spec M m); try discriminate; intros _; right; lia.
  - intros _. left. lia.
Qed.

(** What the hypotheses on a non-zero ppm give: a 53-bit mantissa and a
    magnitude of at most 100000. *)
Lemma ppm_in_range (s : bool) (m : positive) (e : Z) :
  is_binary64 (S754_finite s m e) = true ->
  dle (dneg MAX_FREQ) (S754_finite s m e) = true ->
  dle (S754_finite s m e) MAX_FREQ = true ->
  Zpos m < 2 ^ prec /\ -1074 <= e /\
  (e <= -37 \/ (e = -36 /\ Zpos m <= 6871947673600000)).
Proof.
  unfold is_binary64, valid_binary, bounded, canonical_mantissa, dle, dneg.
  rewrite MAX_FREQ_value. cbn [SFopp negb].
  intros V Lo Hi. apply andb_prop in V. destruct V as [V _].
  apply Z.eqb_eq in V. rewrite fexp_eq in V.
  change (Z.pos (digits2_pos m)) with (Zdigits2 (Zpos m)) in V.
  pose proof (Zdigits2_upper (Zpos m) ltac:(lia)) as U.
  assert (D : Zdigits2 (Zpos m) <= 53) by lia.
  assert (2 ^ Zdigits2 (Zpos m) <= 2 ^ 53)
    by (apply Z.pow_le_mono_r; [lia|exact D]).
  split; [unfold prec; lia|]. split; [lia|].
  destruct s.
  - apply SFleb_neg_bound in Lo. lia.
  - apply SFleb_pos_bound in Hi. lia.
Qed.

Lemma scale_value :
  (inject_Z (Zpos 8796093022208000) * pow2 (-11) == SQ)%Q.
Proof. vm_compute. reflexivity. Qed.

Lemma pow2_m36 : (pow2 (-36) == 1 # 68719476736)%Q.
Proof. vm_compute. reflexivity. Qed.

Lemma pow2_m37 : (pow2 (-37) == 1 # 137438953472)%Q.
Proof. vm_compute. reflexivity. Qed.

(** Magnitude of an in-range ppm. *)
Lemma ppm_magnitude (m : positive) (e : Z) :
  Zpos m < 2 ^ prec ->
  (e <= -37 \/ (e = -36 /\ Zpos m <= 6871947673600000)) ->
  (0 < inject_Z (Zpos m) * pow2 e <= 100000)%Q.
Proof.
  intros Hm He. pose proof (pow2_pos e) as Pe.
  assert (Mp : (0 < inject_Z (Zpos m))%Q) by (apply inject_Z_pos; lia).
  split; [apply Qmult_lt_0_compat; assumption|].
  destruct He as [He|[-> Hm']].
  - apply (pow2_le e (-37)) in He. rewrite pow2_m37 in He.
    assert (Mb : (inject_Z (Zpos m) <= inject_Z (2 ^ prec))%Q)
      by (rewrite <- Zle_Qle; lia).
    change (inject_Z (2 ^ prec)) with (9007199254740992 # 1)%Q in Mb.
    set (a := inject_Z (Zpos m)) in *. set (b := pow2 e) in *.
    clearbody a b. nra.
  - rewrite pow2_m36.
    assert (Mb : (inject_Z (Zpos m) <= inject_Z 6871947673600000)%Q)
      by (rewrite <- Zle_Qle; lia).
    change (inject_Z 6871947673600000) with (6871947673600000 # 1)%Q in Mb.
    set (a := inject_Z (Zpos m)) in *. clearbody a. lra.
Qed.

(** The product [-ppm * (1000LL << 32)]. *)
Lemma scaled_product (s : bool) (m : positive) (e : Z) :
  Zpos m < 2 ^ prec -> -1074 <= e <= -36 ->
  exists m1 e',
    0 <= m1 <= 2 ^ prec /\
    rounds_to (dmul (dneg (S754_finite s m e)) freq_scale) (negb s) m1 e' /\
    e' <= 42 + e /\
    (- pow2 e' <= 2 * (inject_Z m1 * pow2 e'
                       - inject_Z (Zpos m) * pow2 e * SQ) <= pow2 e')%Q.
Proof.
  intros Hm He. rewrite freq_scale_value. cbn [dneg SFopp].
  set (mS := 8796093022208000%positive).
  assert (Hdd : Zdigits2 (Zpos (m * mS)) <= 106).
  { apply Zdigits2_le; [lia|lia|]. rewrite Pos2Z.inj_mul.
    change (2 ^ 106) with (2 ^ prec * 9007199254740992).
    assert (Zpos mS < 9007199254740992) by (unfold mS; lia).
    unfold prec in *. nia. }
  destruct (dmul_value (negb s) m e false mS (-11)
              ltac:(lia) ltac:(lia)) as [m1 [Hm1 [Hr Hv]]].
  set (e' := Z.max (e + -11)
               (fexp prec emax (Zdigits2 (Zpos (m * mS)) + (e + -11)))) in *.
  exists m1, e'. split; [assumption|].
  split; [rewrite xorb_false_r in Hr; exact Hr|].
  split; [unfold e'; rewrite fexp_eq; lia|].
  assert (E : (inject_Z (Z.pos m) * inject_Z (Z.pos mS) * pow2 (e + -11)
               == inject_Z (Z.pos m) * pow2 e * SQ)%Q).
  { rewrite pow2_add, <- scale_value. unfold mS. ring. }
  rewrite E in Hv. exact Hv.
Qed.

(** Conversion of a rounded value to int64. *)
Lemma rounded_to_int64 (r : double) (sx : bool) (m1 e' : Z) :
  rounds_to r sx m1 e' -> 0 <= m1 ->
  (inject_Z m1 * pow2 e' < inject_Z (2 ^ 63))%Q ->
  exists Ka,
    0 <= Ka < 2 ^ 63 /\
    double_to_int64 r = Some (cond_Zopp sx Ka) /\
    (inject_Z Ka <= inject_Z m1 * pow2 e')%Q /\
    (inject_Z m1 * pow2 e' < inject_Z Ka + 1)%Q /\
    (0 <= e' -> (inject_Z Ka == inject_Z m1 * pow2 e')%Q) /\
    (Ka = 0 \/ exists a b, 0 <= b /\ 0 < a < 2 ^ prec /\ Ka = a * 2 ^ b).
Proof.
  intros [[-> ->]|[mR [eR [-> [He [HmR HmRb]]]]]] Hm1 Hlt.
  - exists 0. split; [lia|]. split; [destruct sx; reflexivity|].
    change (inject_Z 0) with 0%Q. pose proof (pow2_pos e').
    repeat split; try lra. left; reflexivity.
  - assert (Ev : (inject_Z m1 * pow2 e' == inject_Z (Zpos mR) * pow2 eR)%Q).
    { rewrite <- HmR, inject_Z_mult.
      replace eR with ((eR - e') + e') at 2 by lia.
      rewrite pow2_add, (pow2_Z (eR - e')) by lia. ring. }
    rewrite Ev in *.
    destruct (trunc_magnitude_spec mR eR) as [K0 [K1 [K2 [K3 K4]]]].
    set (Ka := trunc_magnitude mR eR) in *.
    assert (Kb : Ka < 2 ^ 63).
    { rewrite Zlt_Qlt. lra. }
    exists Ka. split; [lia|]. split.
    + cbn [double_to_int64]. fold Ka.
      replace (in_int64 (cond_Zopp sx Ka)) with true; [reflexivity|].
      symmetry. unfold in_int64, INT64_MIN, INT64_MAX.
      apply andb_true_intro. split; apply Z.leb_le; destruct sx; cbn [cond_Zopp]; lia.
    + split; [rewrite Ev; exact K1|]. split; [rewrite Ev; exact K2|]. split.
      * intros H. rewrite Ev. apply K3. lia.
      * destruct (K4 HmRb) as [a [b [Hb [Ha Hab]]]].
        destruct (Z.eq_dec a 0) as [->|]; [left; lia|].
        right. exists a, b. repeat split; lia.
Qed.

(** Reading back: [(double)-freq] for a kernel value whose magnitude is
    representable. *)
Lemma negated_to_double (s : bool) (Ka : Z) :
  0 <= Ka < 2 ^ 63 ->
  (Ka = 0 \/ exists a b, 0 <= b /\ 0 < a < 2 ^ prec /\ Ka = a * 2 ^ b) ->
  exists X,
    freq_to_ppm (cond_Zopp (negb s) Ka) = Some (ddiv X freq_scale) /\
    ((Ka = 0 /\ X = S754_zero false) \/
     (0 < Ka /\ exists mX eX,
         X = S754_finite s mX eX /\
         (inject_Z (Zpos mX) * pow2 eX == inject_Z Ka)%Q)).
Proof.
  intros HK Hrep. unfold freq_to_ppm, int64_neg.
  assert (N : (cond_Zopp (negb s) Ka =? INT64_MIN) = false).
  { apply Z.eqb_neq. unfold INT64_MIN. destruct s; cbn [negb cond_Zopp]; lia. }
  rewrite N.
  assert (E : - cond_Zopp (negb s) Ka = cond_Zopp s Ka)
    by (destruct s; cbn [negb cond_Zopp]; lia).
  rewrite E. eexists. split; [reflexivity|].
  destruct Hrep as [->|[a [b [Hb [Ha Hab]]]]].
  - left. split; [reflexivity|]. destruct s; reflexivity.
  - right.
    pose proof (Z.pow_pos_nonneg 2 b ltac:(lia) Hb) as Pb.
    assert (Kp : 0 < Ka) by nia. split; [exact Kp|].
    assert (Hb9 : b <= 900).
    { destruct (Z_le_gt_dec b 900) as [|G]; [assumption|exfalso].
      assert (2 ^ 63 <= 2 ^ b) by (apply Z.pow_le_mono_r; lia). nia. }
    destruct Ka as [|p|p]; try lia.
    destruct (binary_round_exact s p a b Hb Ha Hab Hb9) as [mX [eX [HX HV]]].
    exists mX, eX. split; [|exact HV].
    unfold int64_to_double. destruct s; cbn [cond_Zopp Z.opp binary_normalize];
      exact HX.
Qed.

(** The quotient by [1000LL << 32] of a value below [2^17] times it. *)
Lemma scaled_quotient (s : bool) (mX : positive) (eX : Z) (Ka : Z) :
  (inject_Z (Zpos mX) * pow2 eX == inject_Z Ka)%Q ->
  (inject_Z Ka < 131072 * SQ)%Q ->
  exists m1 e',
    0 <= m1 /\
    rounds_to (ddiv (S754_finite s mX eX) freq_scale) s m1 e' /\
    e' <= -36 /\
    (- (pow2 e' * SQ) <= 2 * (inject_Z m1 * pow2 e' * SQ - inject_Z Ka)
     <= pow2 e' * SQ)%Q.
Proof.
  intros HX Hlt. rewrite freq_scale_value.
  destruct (ddiv_value s mX eX false 8796093022208000 (-11) 17)
    as [m1 [e' [Hm1 [Hr [He Hv]]]]].
  - rewrite scale_value, HX. change (pow2 17) with 131072%Q. exact Hlt.
  - lia.
  - exists m1, e'. split; [lia|].
    split; [rewrite xorb_false_r in Hr; exact Hr|].
    split; [rewrite fexp_eq in He; lia|].
    rewrite scale_value, HX in Hv. exact Hv.
Qed.

(** The error budget: rounding of the product, truncation, rounding of
    the quotient. *)
Lemma round_trip_budget (m m1R e eA eR Ka : Z) (Av : Q) :
  0 < m -> (inject_Z m * pow2 e <= 100000)%Q ->
  e <= -36 -> eA <= 42 + e -> eR <= -36 ->
  (- pow2 eA <= 2 * (Av - inject_Z m * pow2 e * SQ) <= pow2 eA)%Q ->
  (inject_Z Ka <= Av)%Q -> (Av < inject_Z Ka + 1)%Q ->
  (0 <= eA -> (inject_Z Ka == Av)%Q) ->
  (- (pow2 eR * SQ) <= 2 * (inject_Z m1R * pow2 eR * SQ - inject_Z Ka)
   <= pow2 eR * SQ)%Q ->
  (- ulp_MAX_FREQ <= inject_Z m1R * pow2 eR - inject_Z m * pow2 e
   <= ulp_MAX_FREQ)%Q.
Proof.
  intros Hm Hp He HeA HeR HA K1 K2 K3 HR.
  unfold ulp_MAX_FREQ, SQ in *.
  set (p := (inject_Z m * pow2 e)%Q) in *.
  set (Rv := (inject_Z m1R * pow2 eR)%Q) in *.
  pose proof (pow2_pos eA) as PA. pose proof (pow2_pos eR) as PR.
  pose proof (pow2_le eR (-36) HeR) as GR. rewrite pow2_m36 in GR.
  destruct (Z_lt_le_dec eA 0) as [A0|A0].
  - (* the product has a fractional part: truncation dominates *)
    pose proof (pow2_le eA (-1) ltac:(lia)) as GA.
    change (pow2 (-1)) with (1 # 2)%Q in GA.
    set (h := pow2 eA) in *. set (g := pow2 eR) in *.
    set (k := inject_Z Ka) in *.
    clearbody p Rv h g k. clear - HA K1 K2 HR GA GR PA PR. split; lra.
  - specialize (K3 A0).
    destruct (Z_le_gt_dec eA 5) as [A5|A5].
    + pose proof (pow2_le eA 5 A5) as GA.
      change (pow2 5) with 32%Q in GA.
      set (h := pow2 eA) in *. set (g := pow2 eR) in *.
      set (k := inject_Z Ka) in *.
      clearbody p Rv h g k. clear - HA K3 HR GA GR PA PR. split; lra.
    + assert (eA = 6) by lia. assert (e = -36) by lia. subst eA e.
      change (pow2 6) with 64%Q in HA.
      destruct (Z_le_gt_dec eR (-37)) as [R7|R7].
      * pose proof (pow2_le eR (-37) R7) as GR'. rewrite pow2_m37 in GR'.
        set (g := pow2 eR) in *. set (k := inject_Z Ka) in *.
        clearbody p Rv g k. clear - HA K3 HR GR' PR. split; lra.
      * assert (eR = -36) by lia. subst eR.
        unfold p, Rv in *. rewrite pow2_m36 in *.
        set (a := inject_Z m1R) in *. set (b := inject_Z m) in *.
        set (k := inject_Z Ka) in *.
        assert (D : (-2 < a - b < 2)%Q)
          by (clearbody a b k; clear - HA K3 HR; split; lra).
        unfold a, b in D. rewrite <- inject_Z_sub in D.
        change (-2)%Q with (inject_Z (-2)) in D.
        change 2%Q with (inject_Z 2) in D.
        destruct D as [D1 D2]. rewrite <- Zlt_Qlt in D1, D2.
        assert (D' : (-1 <= a - b <= 1)%Q).
        { unfold a, b. rewrite <- inject_Z_sub.
          change (-1)%Q with (inject_Z (-1)). change 1%Q with (inject_Z 1).
          rewrite <- !Zle_Qle. lia. }
        clearbody a b k. clear - D'. split; lra.
Qed.

(** The conversions of set_frequency and read_frequency, composed: for a
    binary64 ppm of magnitude at most MAX_FREQ both are defined and the
    value read back is within [2^-36] of the ppm. *)
Lemma round_trip_close (ppm : double) :
  is_binary64 ppm = true ->
  dle (dneg MAX_FREQ) ppm = true ->
  dle ppm MAX_FREQ = true ->
  exists k r,
    ppm_to_freq ppm = Some k /\
    freq_to_ppm k = Some r /\
    (Qabs (to_Q r - to_Q ppm) <= ulp_MAX_FREQ)%Q.
Proof.
  intros V Lo Hi. destruct ppm as [s|s| |s m e].
  - (* zero *)
    exists 0, (S754_zero false). split; [|split].
    + unfold ppm_to_freq. rewrite freq_scale_value. reflexivity.
    + unfold freq_to_ppm. rewrite freq_scale_value. reflexivity.
    + vm_compute. discriminate.
  - exfalso. unfold dle, dneg in *. rewrite MAX_FREQ_value in *.
    destruct s; [discriminate Lo | discriminate Hi].
  - exfalso. unfold dle in Hi. rewrite MAX_FREQ_value in Hi. discriminate Hi.
  - destruct (ppm_in_range s m e V Lo Hi) as [Hm [He Hr]].
    assert (He36 : e <= -36) by lia.
    destruct (ppm_magnitude m e Hm Hr) as [Pp Pb].
    destruct (scaled_product s m e Hm ltac:(lia))
      as [m1A [eA [Hm1A [RA [HeA HA]]]]].
    pose proof (pow2_le eA 6 ltac:(lia)) as GA.
    change (pow2 6) with 64%Q in GA.
    pose proof (pow2_pos eA) as PA.
    set (p := (inject_Z (Zpos m) * pow2 e)%Q) in *.
    set (Av := (inject_Z m1A * pow2 eA)%Q) in *.
    assert (AvB : (Av < 429496729600000033 # 1)%Q).
    { unfold SQ in HA. set (h := pow2 eA) in *.
      clearbody Av p h. clear - HA GA Pb. lra. }
    destruct (rounded_to_int64 _ _ _ _ RA ltac:(lia)) as
      [Ka [HKa [HK [K1 [K2 [K3 Krep]]]]]].
    { fold Av. change (inject_Z (2 ^ 63)) with (9223372036854775808 # 1)%Q.
      clearbody Av. clear - AvB. lra. }
    fold Av in K1, K2, K3.
    destruct (negated_to_double s Ka HKa Krep) as [X [HX Xc]].
    exists (cond_Zopp (negb s) Ka), (ddiv X freq_scale).
    split; [exact HK|]. split; [exact HX|].
    cbn [to_Q]. fold p.
    destruct Xc as [[K0 ->]|[Kp [mX [eX [-> HXv]]]]].
    + (* the kernel value is 0 *)
      subst Ka. rewrite freq_scale_value. cbn [ddiv SFdiv xorb to_Q].
      change (inject_Z 0) with 0%Q in K2.
      assert (Ps : (p < 1 # 100000000000)%Q).
      { unfold SQ in HA. set (h := pow2 eA) in *.
        clearbody Av p h. clear - HA GA K2. lra. }
      unfold ulp_MAX_FREQ. apply Qabs_Qle_condition.
      destruct s; cbn [signedQ]; clearbody p; clear - Ps Pp; split; lra.
    + destruct (scaled_quotient s mX eX Ka HXv) as
        [m1R [eR [Hm1R [RR [HeR HR]]]]].
      { unfold SQ. set (k := inject_Z Ka) in *.
        clearbody Av k. clear - K1 AvB. lra. }
      rewrite (rounds_to_value _ _ _ _ RR), signedQ_abs.
      apply Qabs_Qle_condition.
      apply (round_trip_budget (Zpos m) m1R e eA eR Ka Av);
        try assumption; try lia.
Qed.

(** The kernel value set_frequency computes is [-ppm * 1000 * 2^32] up
    to the rounding of the product (at most 32) and the truncation (less
    than 1). *)
Lemma ppm_to_freq_close (ppm : double) :
  is_binary64 ppm = true ->
  dle (dneg MAX_FREQ) ppm = true ->
  dle ppm MAX_FREQ = true ->
  exists k,
    ppm_to_freq ppm = Some k /\
    (Qabs (inject_Z k + to_Q ppm * SQ) <= 33)%Q.
Proof.
  intros V Lo Hi. destruct ppm as [s|s| |s m e].
  - exists 0. split.
    + unfold ppm_to_freq. rewrite freq_scale_value. reflexivity.
    + vm_compute. discriminate.
  - exfalso. unfold dle, dneg in *. rewrite MAX_FREQ_value in *.
    destruct s; [discriminate Lo | discriminate Hi].
  - exfalso. unfold dle in Hi. rewrite MAX_FREQ_value in Hi. discriminate Hi.
  - destruct (ppm_in_range s m e V Lo Hi) as [Hm [He Hr]].
    destruct (ppm_magnitude m e Hm Hr) as [Pp Pb].
    destruct (scaled_product s m e Hm ltac:(lia))
      as [m1A [eA [Hm1A [RA [HeA HA]]]]].
    pose proof (pow2_le eA 6 ltac:(lia)) as GA.
    change (pow2 6) with 64%Q in GA.
    set (p := (inject_Z (Zpos m) * pow2 e)%Q) in *.
    set (Av := (inject_Z m1A * pow2 eA)%Q) in *.
    assert (AvB : (Av < 429496729600000033 # 1)%Q).
    { unfold SQ in HA. set (h := pow2 eA) in *.
      clearbody Av p h. clear - HA GA Pb. lra. }
    destruct (rounded_to_int64 _ _ _ _ RA ltac:(lia)) as
      [Ka [HKa [HK [K1 [K2 _]]]]].
    { fold Av. change (inject_Z (2 ^ 63)) with (9223372036854775808 # 1)%Q.
      clearbody Av. clear - AvB. lra. }
    fold Av in K1, K2.
    exists (cond_Zopp (negb s) Ka). split; [exact HK|].
    cbn [to_Q]. fold p. apply Qabs_Qle_condition.
    unfold SQ in *. set (h := pow2 eA) in *.
    destruct s; cbn [negb cond_Zopp signedQ]; rewrite ?inject_Z_opp;
      set (k := inject_Z Ka) in *; clearbody Av p h k;
      clear - HA GA K1 K2; split; lra.
Qed.

(** A rounded result is a zero or a finite double. *)
Lemma rounds_to_finite (r : double) (sx : bool) (m1 e' : Z) :
  rounds_to r sx m1 e' -> is_finite r = true.
Proof. intros [[_ ->]|[mR [eR [-> _]]]]; reflexivity. Qed.

(** Conversion of a positive integer below [2^k] to double: within half
    a unit in the last place, whether it is representable or not. *)
Lemma binary_round_value (s : bool) (p : positive) (k : Z) :
  Zpos p < 2 ^ k -> 0 <= k <= 900 ->
  exists m1 e',
    0 <= m1 <= 2 ^ prec /\
    rounds_to (binary_round prec emax s p 0) s m1 e' /\
    e' <= fexp prec emax k /\
    (- pow2 e' <= 2 * (inject_Z m1 * pow2 e' - inject_Z (Zpos p)) <= pow2 e')%Q.
Proof.
  intros Hp Hk. unfold binary_round.
  pose proof (shl_align_spec p 0 (fexp prec emax (Zpos (digits2_pos p) + 0))) as SA.
  destruct (shl_align p 0 _) as [mz ez]. destruct SA as [Hez Hmz].
  change (Zpos (digits2_pos p)) with (Zdigits2 (Zpos p)) in Hez.
  rewrite Z.add_0_r in Hez.
  set (dp := Zdigits2 (Zpos p)) in *.
  assert (Hdp : dp <= k) by (apply Zdigits2_le; lia).
  pose proof (fexp_eq dp) as Fe. pose proof (fexp_eq k) as Fk.
  assert (Dp1 : 1 <= dp) by (unfold dp; cbn [Zdigits2]; lia).
  assert (Hez0 : ez <= 0) by lia.
  pose proof (Z.pow_pos_nonneg 2 (0 - ez) ltac:(lia) ltac:(lia)) as Pz.
  destruct (Zdigits2_bounds (Zpos p) ltac:(lia)) as [Lo Up]. fold dp in Lo, Up.
  assert (Hdz : Zdigits2 (Zpos mz) + ez = dp).
  { assert (L : dp - ez - 1 < Zdigits2 (Zpos mz)).
    { apply Zdigits2_gt; [lia|]. rewrite Hmz.
      replace (dp - ez - 1) with ((dp - 1) + (0 - ez)) by lia.
      rewrite Z.pow_add_r by lia. nia. }
    assert (U : Zdigits2 (Zpos mz) <= dp - ez).
    { apply Zdigits2_le; [lia|lia|]. rewrite Hmz.
      replace (dp - ez) with (dp + (0 - ez)) by lia.
      rewrite Z.pow_add_r by lia. nia. }
    lia. }
  assert (Zp : (inject_Z (Zpos p) == inject_Z (Zpos mz) / inject_Z 1 * pow2 ez)%Q).
  { assert (Z1 : (pow2 ez * inject_Z (2 ^ (0 - ez)) == 1)%Q).
    { rewrite <- (pow2_Z (0 - ez)), <- pow2_add by lia.
      replace (ez + (0 - ez)) with 0 by lia. reflexivity. }
    rewrite Hmz, inject_Z_mult. change (inject_Z 1) with 1%Q.
    transitivity (inject_Z (Z.pos p) * (pow2 ez * inject_Z (2 ^ (0 - ez))))%Q;
      [rewrite Z1; ring | field]. }
  destruct (binary_round_aux_value s (Zpos mz) ez loc_Exact (Zpos mz) 1
              (inject_Z (Zpos p))
              ltac:(lia) ltac:(lia) (loc_ok_exact _)
              ltac:(lia) ltac:(lia) Zp)
    as [m1 [Hm1 [Hr Hv]]].
  rewrite Hdz in Hr, Hv.
  exists m1, (Z.max ez (fexp prec emax dp)).
  split; [exact Hm1|]. split; [exact Hr|]. split; [lia|]. exact Hv.
Qed.

(** The value read_frequency computes from a kernel value: defined for
    every int64 but INT64_MIN, whose negation overflows; it is a zero or
    a finite double, times [1000 * 2^32] it is within 2512 units of [-k]
    (within 2^-30 ppm), and its sign is opposite to [k]'s. *)
Lemma freq_to_ppm_close (k : Z) :
  in_int64 k = true -> k <> INT64_MIN ->
  exists r,
    freq_to_ppm k = Some r /\
    is_finite r = true /\
    (Qabs (to_Q r * SQ + inject_Z k) <= 2512)%Q /\
    (0 <= k -> (to_Q r <= 0)%Q) /\ (k <= 0 -> (0 <= to_Q r)%Q).
Proof.
  intros Hin Hmin. unfold freq_to_ppm, int64_neg.
  apply Z.eqb_neq in Hmin. rewrite Hmin. apply Z.eqb_neq in Hmin.
  unfold in_int64, INT64_MIN, INT64_MAX in *.
  apply andb_prop in Hin. destruct Hin as [H1 H2].
  apply Z.leb_le in H1, H2.
  eexists. split; [reflexivity|].
  rewrite freq_scale_value.
  destruct (Z.eq_dec k 0) as [->|Kn0].
  { cbn. split; [reflexivity|]. split; [discriminate|].
    split; intros _; discriminate. }
  set (s := (- k <? 0)).
  set (Ka := Z.abs k).
  assert (HKa : 0 <= Ka < 2 ^ 63) by (unfold Ka; lia).
  assert (Ek : k = cond_Zopp (negb s) Ka).
  { unfold s, Ka. destruct (Z.ltb_spec (- k) 0); cbn [negb cond_Zopp]; lia. }
  assert (K0 : Ka <> 0) by (unfold Ka; lia).
  - (* the conversion (double)-k *)
    assert (EX : exists p, Zpos p = Ka /\
                 int64_to_double (- k) = binary_round prec emax s p 0).
    { unfold int64_to_double, s, Ka.
      destruct k as [|q|q]; try lia; cbn [Z.opp binary_normalize Z.abs Z.ltb Z.compare];
        eexists; split; reflexivity. }
    destruct EX as [p [Hp ->]].
    destruct (binary_round_value s p 63 ltac:(lia) ltac:(lia))
      as [m1X [eX [Hm1X [RX [HeX HX]]]]].
    rewrite fexp_eq in HeX. rewrite Hp in HX.
    pose proof (pow2_le eX 10 ltac:(lia)) as GX.
    change (pow2 10) with 1024%Q in GX.
    pose proof (pow2_pos eX) as PX.
    assert (KQ : (inject_Z Ka < 9223372036854775808 # 1)%Q).
    { change (9223372036854775808 # 1)%Q with (inject_Z (2 ^ 63)).
      rewrite <- Zlt_Qlt. lia. }
    assert (KQ0 : (0 <= inject_Z Ka)%Q) by (apply inject_Z_nonneg; lia).
    set (Xv := (inject_Z m1X * pow2 eX)%Q) in *.
    assert (Sg : (inject_Z k == - signedQ s (inject_Z Ka))%Q).
    { rewrite Ek at 1. destruct s; cbn [negb cond_Zopp signedQ];
        rewrite ?inject_Z_opp; ring. }
    destruct RX as [[Hz ->]|[mX [eX' [-> [HeX' [HmX HmXb]]]]]].
    + (* the double is a zero: the quotient is a zero *)
      cbn [ddiv SFdiv to_Q]. subst m1X.
      assert (Xv == 0)%Q by (unfold Xv; change (inject_Z 0) with 0%Q; ring).
      split; [reflexivity|]. split.
      * apply Qabs_Qle_condition. rewrite Sg.
        set (a := inject_Z Ka) in *. set (h := pow2 eX) in *.
        destruct s; cbn [signedQ]; clearbody a h Xv; split; lra.
      * split; intros _; lra.
    + assert (XV : (inject_Z (Zpos mX) * pow2 eX' == Xv)%Q).
      { unfold Xv. rewrite <- HmX, inject_Z_mult.
        replace eX' with ((eX' - eX) + eX) at 1 by lia.
        rewrite pow2_add, (pow2_Z (eX' - eX)) by lia. ring. }
      destruct (ddiv_value s mX eX' false 8796093022208000 (-11) 23)
        as [m1R [eR [Hm1R [RR [HeR HR]]]]].
      { rewrite scale_value, XV. change (pow2 23) with 8388608%Q.
        unfold SQ. set (a := inject_Z Ka) in *. set (h := pow2 eX) in *.
        clearbody a h Xv. lra. }
      { lia. }
      rewrite xorb_false_r in RR. rewrite fexp_eq in HeR.
      rewrite scale_value, XV in HR.
      pose proof (pow2_le eR (-30) ltac:(lia)) as GR.
      change (pow2 (-30)) with (1 # 1073741824)%Q in GR.
      pose proof (pow2_pos eR) as PR.
      split; [exact (rounds_to_finite _ _ _ _ RR)|].
      rewrite (rounds_to_value _ _ _ _ RR).
      set (Rv := (inject_Z m1R * pow2 eR)%Q) in *.
      assert (Rv0 : (0 <= Rv)%Q).
      { unfold Rv. apply Qmult_le_0_compat; [apply inject_Z_nonneg; lia|lra]. }
      split.
      * apply Qabs_Qle_condition. rewrite Sg. unfold SQ in *.
        set (a := inject_Z Ka) in *. set (h := pow2 eX) in *.
        set (g := pow2 eR) in *.
        destruct s; cbn [signedQ]; clearbody a h g Xv Rv; split; lra.
      * assert (Sk : (0 <= k -> s = true \/ Ka = 0) /\ (k <= 0 -> s = false)).
        { unfold s, Ka. destruct (Z.ltb_spec (- k) 0); split; intros; try lia; auto. }
        destruct Sk as [Sk1 Sk2]. split; intros Hk.
        -- destruct (Sk1 Hk) as [->|]; [cbn [signedQ]; lra | lia].
        -- rewrite (Sk2 Hk). cbn [signedQ]. exact Rv0.
Qed.

End Rounding.

(** ** Frequency steering *)

Section FrequencyClaims.

Context {W : Type} {P : Platform W}.

Lemma read_frequency_unfold (s : state W) :
  read_frequency s =
  let '(r, freq, w') := PRV_AdjustFreq None true (world s) in
  let tr := trace s ++ [AdjustFreq None true r freq] in
  if r =? 0 then
    match freq_to_ppm freq with
    | Some ppm => Done ppm (Build_state (last_rtc_sync s) tr w')
    | None => Undefined
    end
  else
    Exited (Build_state (last_rtc_sync s)
              (tr ++ [Log LOGS_FATAL "adjfreq() failed"]) w').
Proof.
  unfold read_frequency, do_AdjustFreq, LOG_FATAL, bind, call, emit, ret.
  simpl. destruct (PRV_AdjustFreq None true (world s)) as [[r freq] w']. simpl.
  destruct (r =? 0); simpl; [|reflexivity].
  destruct (freq_to_ppm freq); reflexivity.
Qed.

Lemma set_frequency_unfold (freq_ppm : double) (s : state W) :
  set_frequency freq_ppm s =
  match ppm_to_freq freq_ppm with
  | None => Undefined
  | Some freq =>
      let '(r, old, w') := PRV_AdjustFreq (Some freq) false (world s) in
      let s1 := Build_state (last_rtc_sync s)
                  (trace s ++ [AdjustFreq (Some freq) false r old]) w' in
      if r =? 0 then read_frequency s1
      else
        Exited (Build_state (last_rtc_sync s)
                  (trace s1 ++ [Log LOGS_FATAL "adjfreq() failed"]) w')
  end.
Proof.
  unfold set_frequency. destruct (ppm_to_freq freq_ppm) as [freq|]; [|reflexivity].
  unfold do_AdjustFreq, LOG_FATAL, bind, call, emit, ret. simpl.
  destruct (PRV_AdjustFreq (Some freq) false (world s)) as [[r old] w']. simpl.
  destruct (r =? 0); reflexivity.
Qed.

(** C6: set_frequency converts the negated ppm, times [1000LL << 32], to
    an int64 and hands it to the kernel; it then returns what
    read_frequency returns, which is minus the kernel's current value [k']
    divided by [1000LL << 32] -- a function of what the kernel reports,
    not of the argument.  A failing kernel call ends the process. *)
Theorem set_frequency_returns_kernel_value
  (freq_ppm : double) (s : state W)
  (k : Z) (old : Z) (w1 : W) (k' : Z) (w2 : W) :
  double_to_int64 (dmul (dneg freq_ppm) freq_scale) = Some k ->
  PRV_AdjustFreq (Some k) false (world s) = (0, old, w1) ->
  PRV_AdjustFreq None true w1 = (0, k', w2) ->
  k' <> INT64_MIN ->
  let s1 := Build_state (last_rtc_sync s)
              (trace s ++ [AdjustFreq (Some k) false 0 old]) w1 in
  let s2 := Build_state (last_rtc_sync s)
              (trace s ++ [AdjustFreq (Some k) false 0 old;
                           AdjustFreq None true 0 k']) w2 in
  let result := ddiv (int64_to_double (- k')) freq_scale in
  set_frequency freq_ppm s = Done result s2 /\
  read_frequency s1 = Done result s2.
Proof.
  intros Hk H1 H2 Hmin s1 s2 result.
  assert (R : read_frequency s1 = Done result s2).
  { rewrite read_frequency_unfold. simpl. rewrite H2. simpl.
    unfold freq_to_ppm, int64_neg. apply Z.eqb_neq in Hmin. rewrite Hmin.
    unfold s2. rewrite <- app_assoc. reflexivity. }
  split; [|exact R].
  rewrite set_frequency_unfold. unfold ppm_to_freq. rewrite Hk, H1. simpl.
  exact R.
Qed.

(** X10: When adjfreq() fails, read_frequency and set_frequency end the
    process with the fatal message "adjfreq() failed" right after the
    failed call: set_frequency does not go on to read the frequency
    back. *)
Lemma frequency_call_failure_is_fatal (freq_ppm : double) (s : state W) :
  (forall r freq w',
      PRV_AdjustFreq None true (world s) = (r, freq, w') -> r <> 0 ->
      read_frequency s =
      Exited (Build_state (last_rtc_sync s)
                (trace s ++ [AdjustFreq None true r freq;
                             Log LOGS_FATAL "adjfreq() failed"]) w')) /\
  (forall k r old w',
      ppm_to_freq freq_ppm = Some k ->
      PRV_AdjustFreq (Some k) false (world s) = (r, old, w') -> r <> 0 ->
      set_frequency freq_ppm s =
      Exited (Build_state (last_rtc_sync s)
                (trace s ++ [AdjustFreq (Some k) false r old;
                             Log LOGS_FATAL "adjfreq() failed"]) w')).
Proof.
  split.
  - intros r freq w' H Hr. rewrite read_frequency_unfold, H.
    apply Z.eqb_neq in Hr. rewrite Hr. simpl.
    rewrite <- app_assoc. reflexivity.
  - intros k r old w' Hk H Hr. rewrite set_frequency_unfold, Hk, H.
    apply Z.eqb_neq in Hr. rewrite Hr. simpl.
    rewrite <- app_assoc. reflexivity.
Qed.

End FrequencyClaims.

(** Sign inversion on concrete values: +1 ppm is the kernel value
    -(1000 * 2^32), -2.5 ppm is +2.5 * 1000 * 2^32, and back. *)
Example ppm_to_freq_values :
  ppm_to_freq (int64_to_double 1) = Some (- 4294967296000) /\
  ppm_to_freq (ddiv (int64_to_double (-5)) (int64_to_double 2))
  = Some 10737418240000 /\
  freq_to_ppm (- 4294967296000) = Some (int64_to_double 1) /\
  freq_to_ppm 10737418240000
  = Some (ddiv (int64_to_double (-5)) (int64_to_double 2)).
Proof. vm_compute. repeat split. Qed.

Lemma set_frequency_returns_kernel_value_witness :
  let s := Sim.start (Sim.seconds 0) Sim.boot in
  exists s',
    set_frequency (int64_to_double 1) s = Done (int64_to_double 1) s' /\
    Sim.kfreq (world s') = - 4294967296000.
Proof.
  intros s.
  pose (k := - 4294967296000).
  pose (w1 := snd (Sim.adjust_freq (Some k) false Sim.boot)).
  assert (H1 : double_to_int64 (dmul (dneg (int64_to_double 1)) freq_scale)
               = Some k) by (vm_compute; reflexivity).
  assert (H2 : PRV_AdjustFreq (Some k) false (world s) = (0, 0, w1))
    by (vm_compute; reflexivity).
  assert (H3 : PRV_AdjustFreq None true w1 = (0, k, w1))
    by (vm_compute; reflexivity).
  assert (H4 : k <> INT64_MIN) by (vm_compute; discriminate).
  destruct (set_frequency_returns_kernel_value
              (int64_to_double 1) s k 0 w1 k w1 H1 H2 H3 H4) as [H _].
  eexists. split; [exact H | vm_compute; reflexivity].
Defined.

(** ** The frequency round trip *)

Lemma double_to_int64_range (x : double) (k : Z) :
  double_to_int64 x = Some k -> in_int64 k = true.
Proof.
  destruct x as [s|s| |s m e]; cbn [double_to_int64]; try discriminate.
  - intros H. injection H as <-. reflexivity.
  - destruct (in_int64 _) eqn:E; [|discriminate].
    intros H. injection H as <-. exact E.
Qed.

Section RoundTrip.

Context {W : Type} {P : Platform W}.

(** C5 (amended): for every binary64 ppm in [-100000, 100000], on a kernel
    that accepts an int64 frequency and reports it back unchanged,
    set_frequency returns -- it is read_frequency's value that it returns
    -- a zero or a finite double, never a NaN or an infinity, within
    [2^-36] ppm of the argument: one unit in the last place of a double
    at the top of the range, 62.5 quantization units.
    The two roundings to double (of the product and of the quotient) are
    what pushes the error above one quantization unit. *)
Theorem set_then_read_within_ulp (freq_ppm : double) (s : state W) :
  is_binary64 freq_ppm = true ->
  dle (dneg MAX_FREQ) freq_ppm = true ->
  dle freq_ppm MAX_FREQ = true ->
  (forall k, in_int64 k = true ->
     exists old w1 w2,
       PRV_AdjustFreq (Some k) false (world s) = (0, old, w1) /\
       PRV_AdjustFreq None true w1 = (0, k, w2)) ->
  exists r s',
    set_frequency freq_ppm s = Done r s' /\
    is_finite r = true /\
    (Qabs (to_Q r - to_Q freq_ppm) <= 1 # 2 ^ 36)%Q.
Proof.
  intros V Lo Hi Store.
  destruct (Rounding.round_trip_close freq_ppm V Lo Hi) as [k [r [Hk [Hr Hc]]]].
  destruct (Store k (double_to_int64_range _ _ Hk)) as [old [w1 [w2 [S1 S2]]]].
  assert (F : is_finite r = true).
  { assert (Hmin : k <> INT64_MIN).
    { intros ->. unfold freq_to_ppm, int64_neg in Hr.
      rewrite Z.eqb_refl in Hr. discriminate Hr. }
    destruct (Rounding.freq_to_ppm_close k (double_to_int64_range _ _ Hk) Hmin)
      as [r' [Hr' [F' _]]].
    rewrite Hr in Hr'. injection Hr' as <-. exact F'. }
  exists r. eexists. split; [|split; [exact F | exact Hc]].
  rewrite set_frequency_unfold, Hk, S1. cbn [Z.eqb].
  rewrite read_frequency_unfold. cbn [world trace last_rtc_sync].
  rewrite S2. cbn [Z.eqb]. rewrite Hr. reflexivity.
Qed.

End RoundTrip.

(** C5 as stated fails: ppm = 98304 + 21 * 2^-36 is a binary64 value
    inside the range; on the machine, whose kernel keeps the frequency it
    is given, set_frequency returns the next double, 2^-36 above, and
    2^-36 is more than the quantization unit 1 / (1000 * 2^32). *)
Lemma round_trip_exceeds_quantum :
  let ppm := S754_finite false 6755399441055765 (-36) in
  let back := S754_finite false 6755399441055766 (-36) in
  let s := Sim.start (Sim.seconds 0) Sim.boot in
  is_binary64 ppm = true /\
  dle (dneg MAX_FREQ) ppm = true /\
  dle ppm MAX_FREQ = true /\
  (to_Q ppm == 98304 + 21 * (1 # 2 ^ 36))%Q /\
  set_frequency ppm s
  = Done back (final_state (set_frequency ppm) s) /\
  Sim.kfreq (world (final_state (set_frequency ppm) s))
  = - 422212465065985344 /\
  (to_Q back - to_Q ppm == 1 # 2 ^ 36)%Q /\
  ~ (Qabs (to_Q back - to_Q ppm) <= 1 # 4294967296000)%Q.
Proof.
  cbv zeta. repeat split; try (vm_compute; reflexivity).
  intros H. vm_compute in H. apply H. reflexivity.
Qed.

Lemma set_then_read_within_ulp_witness :
  let ppm := S754_finite false 6755399441055765 (-36) in
  let s := Sim.start (Sim.seconds 0) Sim.boot in
  exists r s',
    set_frequency ppm s = Done r s' /\
    is_finite r = true /\
    (Qabs (to_Q r - to_Q ppm) <= 1 # 2 ^ 36)%Q.
Proof.
  intros ppm s.
  assert (V : is_binary64 ppm = true) by (vm_compute; reflexivity).
  assert (Lo : dle (dneg MAX_FREQ) ppm = true) by (vm_compute; reflexivity).
  assert (Hi : dle ppm MAX_FREQ = true) by (vm_compute; reflexivity).
  apply (set_then_read_within_ulp ppm s V Lo Hi).
  intros k _. exists 0. eexists. eexists. split; reflexivity.
Defined.

(* ================================================================== *)
(** * Further properties of the driver *)

(** ** Traces of the status callback *)

Section StatusTraces.

Context {W : Type} {P : Platform W}.

(** fabs never yields a value below zero (a NaN compares as not below). *)
Lemma fabs_not_negative (x : double) : SFltb (fabs x) (S754_zero false) = false.
Proof. destruct x as [s|s| |s m e]; reflexivity. Qed.

(** What one report adds to the trace. *)
Lemma deliver_trace (r : report W) (s : state W) :
  exists new,
    trace (deliver r s) = trace s ++ new /\
    (new = [] \/
     (exists ts rc,
         rc < 0 /\
         new = [SetTime CLOCK_REALTIME ts rc;
                Log LOGS_DEBUG "clock_settime() failed";
                Log LOGS_DEBUG "rtc synchronised"]) \/
     (exists ts rc d,
         0 <= rc /\
         new = [SetTime CLOCK_REALTIME ts rc;
                DispersionNotify (fabs d);
                Log LOGS_DEBUG "rtc synchronised"])).
Proof.
  unfold deliver, final_state. rewrite set_sync_status_unfold.
  destruct (gate_open _ _);
    [|exists []; split; [cbn [arrive trace]; now rewrite app_nil_r | now left]].
  destruct (dge _ _);
    [|exists []; split; [cbn [arrive trace]; now rewrite app_nil_r | now left]].
  cbv zeta.
  destruct (LCL_ReadRawTime _) as [ts w1].
  destruct (PRV_SetTime CLOCK_REALTIME ts w1) as [rc w2].
  destruct (rc <? 0) eqn:R.
  - apply Z.ltb_lt in R. eexists. split; [reflexivity|].
    right. left. exists ts, rc. split; [exact R | reflexivity].
  - apply Z.ltb_ge in R. destruct (LCL_ReadRawTime w2) as [new_ts w3].
    eexists. split; [reflexivity|].
    right. right. exists ts, rc, (UTI_DiffTimespecsToDouble new_ts ts).
    split; [exact R | reflexivity].
Qed.

Lemma count_events_app (f : event -> bool) (a b : list event) :
  count_events f (a ++ b) = (count_events f a + count_events f b)%nat.
Proof. unfold count_events. now rewrite filter_app, length_app. Qed.

Lemma deliver_balanced (r : report W) (s : state W) :
  balanced (trace s) -> balanced (trace (deliver r s)).
Proof.
  intros [B1 [B2 B3]].
  destruct (deliver_trace r s) as [new [-> Hnew]].
  unfold balanced. rewrite !count_events_app, B1, B2, B3.
  destruct Hnew as [->|[[ts [rc [Hrc ->]]]|[ts [rc [d [Hrc ->]]]]]].
  - repeat split; reflexivity.
  - apply Z.ltb_lt in Hrc.
    unfold count_events; cbn [filter is_log is_SetTime is_SetTime_ok
      is_SetTime_failed is_DispersionNotify String.eqb]; rewrite Hrc.
    repeat split; reflexivity.
  - apply Z.ltb_ge in Hrc.
    unfold count_events; cbn [filter is_log is_SetTime is_SetTime_ok
      is_SetTime_failed is_DispersionNotify String.eqb]; rewrite Hrc.
    repeat split; reflexivity.
Qed.

(** X2: Over any sequence of status reports the books of the resynchroniser
    stay balanced. *)
Theorem status_reports_keep_balance (rs : list (report W)) (s : state W) :
  balanced (trace s) -> balanced (trace (deliver_all rs s)).
Proof.
  revert s. induction rs as [|r rs IH]; intros s B; [exact B|].
  rewrite deliver_all_cons. apply IH, deliver_balanced, B.
Qed.

(** X3: Whatever a sequence of status reports adds to the trace is a
    time-set call on CLOCK_REALTIME, a dispersion that is not negative,
    or a debug-level log line. *)
Theorem status_reports_only_add_rtc_events
  (rs : list (report W)) (s : state W) :
  exists new,
    trace (deliver_all rs s) = trace s ++ new /\
    forallb is_status_event new = true.
Proof.
  revert s. induction rs as [|r rs IH]; intros s.
  - exists []. split; [simpl; now rewrite app_nil_r | reflexivity].
  - rewrite deliver_all_cons.
    destruct (IH (deliver r s)) as [new2 [E2 F2]].
    destruct (deliver_trace r s) as [new1 [E1 H1]].
    exists (new1 ++ new2). split.
    + rewrite E2, E1, app_assoc. reflexivity.
    + rewrite forallb_app, F2, andb_true_r.
      destruct H1 as [->|[[ts [rc [Hrc ->]]]|[ts [rc [d [Hrc ->]]]]]];
        cbn [forallb is_status_event]; rewrite ?fabs_not_negative;
        reflexivity.
Qed.

(** While every report comes less than an hour (in absolute value) from
    the baseline, nothing is attempted, logged or rebased. *)
Lemma deliver_all_within_the_hour (rs : list (report W)) (s : state W) :
  (forall r w, In r rs ->
     dge (fabs (UTI_DiffTimespecsToDouble
                  (SCH_GetLastEventTime (evolve r w)) (last_rtc_sync s)))
         RTC_SYNC_INTERVAL = false) ->
  trace (deliver_all rs s) = trace s /\
  last_rtc_sync (deliver_all rs s) = last_rtc_sync s.
Proof.
  revert s. induction rs as [|r rs IH]; intros s H; [split; reflexivity|].
  rewrite deliver_all_cons.
  assert (Q : deliver r s = arrive r s).
  { unfold deliver, final_state. rewrite set_sync_status_unfold.
    destruct (gate_open _ _); [|reflexivity].
    unfold rtc_sync_elapsed. cbn [arrive world last_rtc_sync].
    rewrite (H r (world s) (or_introl eq_refl)). reflexivity. }
  rewrite Q.
  destruct (IH (arrive r s)) as [T L].
  - intros r' w Hin. cbn [arrive last_rtc_sync]. apply H. now right.
  - rewrite T, L. split; reflexivity.
Qed.

End StatusTraces.

Lemma status_reports_keep_balance_witness :
  balanced
    (trace (deliver_all
              [Sim.status 0 1 0; Sim.status 1800 1 0; Sim.status 3700 1 (-1)]
              (Sim.start (Sim.seconds (-3600)) Sim.boot))).
Proof.
  apply status_reports_keep_balance. vm_compute. repeat split.
Defined.

(** ** Start-up *)

Section StartupFacts.

Context {W : Type} {P : Platform W} {E : Engine W}.

(** Initialisation, step by step. *)
Lemma SYS_OpenBSD_Initialise_unfold (s : state W) :
  SYS_OpenBSD_Initialise s =
  let '(r, cinfo) := sysctl_kern_clockrate (world s) in
  if r <? 0 then
    Exited (Build_state (last_rtc_sync s)
              (trace s ++ [Log LOGS_FATAL "sysctl() failed"]) (world s))
  else
    let '(ra, w1) := PRV_AdjustTime (Some zero_timeval) (world s) in
    if ra =? 0 then
      let '(ts, w2) := LCL_ReadRawTime w1 in
      Done tt (Build_state ts
                 (trace s ++ [AdjustTime (Some zero_timeval) ra])
                 (SYS_Generic_CompleteFreqDriver (openbsd_driver cinfo) w2))
    else
      Exited (Build_state (last_rtc_sync s)
                (trace s ++ [AdjustTime (Some zero_timeval) ra;
                             Log LOGS_FATAL "adjtime() failed"]) w1).
Proof.
  unfold SYS_OpenBSD_Initialise, get_clockinfo, bind at 1 2 3.
  unfold ask, LOG_FATAL, ret.
  destruct (sysctl_kern_clockrate (world s)) as [r cinfo]. cbn [fst snd].
  destruct (r <? 0); [reflexivity|].
  unfold bind at 1. rewrite reset_adjtime_offset_unfold.
  destruct (PRV_AdjustTime (Some zero_timeval) (world s)) as [ra w1].
  destruct (ra =? 0); [|reflexivity].
  unfold bind, call, set_last_rtc_sync. cbn [world trace last_rtc_sync].
  destruct (LCL_ReadRawTime w1) as [ts w2]. reflexivity.
Qed.

(** X5: Initialisation fails closed: when the clock-rate sysctl fails it
    exits before anything is called, and when the adjtime reset is
    refused it exits before the raw clock is read; either way the
    baseline stays, the driver is not registered, and the message names
    the call that failed. *)
Theorem initialise_fails_closed (s : state W) :
  (forall r cinfo,
      sysctl_kern_clockrate (world s) = (r, cinfo) -> r < 0 ->
      SYS_OpenBSD_Initialise s =
      Exited (Build_state (last_rtc_sync s)
                (trace s ++ [Log LOGS_FATAL "sysctl() failed"]) (world s))) /\
  (forall r cinfo ra w1,
      sysctl_kern_clockrate (world s) = (r, cinfo) -> 0 <= r ->
      PRV_AdjustTime (Some zero_timeval) (world s) = (ra, w1) -> ra <> 0 ->
      SYS_OpenBSD_Initialise s =
      Exited (Build_state (last_rtc_sync s)
                (trace s ++ [AdjustTime (Some zero_timeval) ra;
                             Log LOGS_FATAL "adjtime() failed"]) w1)) /\
  (forall s',
      SYS_OpenBSD_Initialise s = Done tt s' ->
      0 <= fst (sysctl_kern_clockrate (world s)) /\
      fst (PRV_AdjustTime (Some zero_timeval) (world s)) = 0).
Proof.
  split; [|split].
  - intros r cinfo H Hr. rewrite SYS_OpenBSD_Initialise_unfold, H.
    apply Z.ltb_lt in Hr. now rewrite Hr.
  - intros r cinfo ra w1 H Hr Ha Hra.
    rewrite SYS_OpenBSD_Initialise_unfold, H, Ha.
    apply Z.ltb_ge in Hr. apply Z.eqb_neq in Hra. now rewrite Hr, Hra.
  - intros s' H. rewrite SYS_OpenBSD_Initialise_unfold in H.
    destruct (sysctl_kern_clockrate (world s)) as [r cinfo]. cbn [fst].
    destruct (r <? 0) eqn:R; [discriminate|]. apply Z.ltb_ge in R.
    destruct (PRV_AdjustTime (Some zero_timeval) (world s)) as [ra w1].
    cbn [fst]. destruct (ra =? 0) eqn:A; [|discriminate].
    apply Z.eqb_eq in A. split; assumption.
Qed.

(** X6: After a start-up that returned, the adjtime reset went through
    with the zero delta, the baseline is the raw time read after it, the
    driver handed to the generic layer is this file's (bound MAX_FREQ,
    status hook set_sync_status), and status reports attempt no RTC
    commit as long as their scheduler time stays less than an hour away
    from that raw time. *)
Theorem initialise_sets_baseline (s s0 : state W) :
  SYS_OpenBSD_Initialise s = Done tt s0 ->
  exists cinfo w1 ts w2,
    snd (sysctl_kern_clockrate (world s)) = cinfo /\
    PRV_AdjustTime (Some zero_timeval) (world s) = (0, w1) /\
    LCL_ReadRawTime w1 = (ts, w2) /\
    last_rtc_sync s0 = ts /\
    trace s0 = trace s ++ [AdjustTime (Some zero_timeval) 0] /\
    world s0 = SYS_Generic_CompleteFreqDriver (openbsd_driver cinfo) w2 /\
    max_set_freq_ppm (openbsd_driver cinfo) = MAX_FREQ /\
    sys_set_sync_status (openbsd_driver cinfo) = Some set_sync_status /\
    (forall rs : list (report W),
        (forall r w, In r rs ->
           dge (fabs (UTI_DiffTimespecsToDouble
                        (SCH_GetLastEventTime (evolve r w)) ts))
               RTC_SYNC_INTERVAL = false) ->
        trace (deliver_all rs s0) = trace s0 /\
        last_rtc_sync (deliver_all rs s0) = ts).
Proof.
  intros H. rewrite SYS_OpenBSD_Initialise_unfold in H.
  destruct (sysctl_kern_clockrate (world s)) as [r cinfo].
  destruct (r <? 0); [discriminate|].
  destruct (PRV_AdjustTime (Some zero_timeval) (world s)) as [ra w1].
  destruct (ra =? 0) eqn:A; [|discriminate]. apply Z.eqb_eq in A. subst ra.
  destruct (LCL_ReadRawTime w1) as [ts w2] eqn:R.
  injection H as <-.
  exists cinfo, w1, ts, w2. cbn [snd last_rtc_sync trace world].
  repeat (split; [first [reflexivity | exact R]|]).
  intros rs H.
  apply (deliver_all_within_the_hour rs
           (Build_state ts (trace s ++ [AdjustTime (Some zero_timeval) 0])
              (SYS_Generic_CompleteFreqDriver (openbsd_driver cinfo) w2))).
  exact H.
Qed.

End StartupFacts.

Lemma initialise_sets_baseline_witness :
  let s := Sim.start (Sim.seconds 7) (Sim.at_time (Sim.seconds 100) 0 Sim.boot) in
  exists s0,
    SYS_OpenBSD_Initialise (E := sim_engine 0 100) s = Done tt s0 /\
    last_rtc_sync s0 = Sim.seconds 100 /\
    trace (deliver_all [Sim.status 1800 1 0; Sim.status 3600 1 0] s0) = trace s0.
Proof.
  intros s.
  set (s0 := Build_state (Sim.seconds 100) [AdjustTime (Some zero_timeval) 0]
               (Sim.at_time (Sim.seconds 100) 0 Sim.boot)).
  assert (I : SYS_OpenBSD_Initialise (E := sim_engine 0 100) s = Done tt s0)
    by (vm_compute; reflexivity).
  exists s0. split; [exact I|]. split; [reflexivity|].
  destruct (initialise_sets_baseline (E := sim_engine 0 100) s s0 I)
    as [cinfo [w1 [ts [w2 [_ [_ [_ [L [_ [_ [_ [_ Q]]]]]]]]]]]].
  apply Q. intros r w [<-|[<-|[]]]; rewrite <- L; vm_compute; reflexivity.
Defined.

(** ** Accuracy of the frequency conversions *)

Import Rounding.

(** The kernel value has the sign opposite to the ppm. *)
Lemma ppm_to_freq_sign (ppm : double) (k : Z) :
  is_binary64 ppm = true ->
  dle (dneg MAX_FREQ) ppm = true ->
  dle ppm MAX_FREQ = true ->
  ppm_to_freq ppm = Some k ->
  ((0 <= to_Q ppm)%Q -> k <= 0) /\ ((to_Q ppm <= 0)%Q -> 0 <= k).
Proof.
  intros V Lo Hi. destruct ppm as [s|s| |s m e].
  - unfold ppm_to_freq. rewrite freq_scale_value. cbn [dneg SFopp dmul SFmul double_to_int64].
    intros H. injection H as <-. split; intros _; lia.
  - exfalso. unfold dle, dneg in *. rewrite MAX_FREQ_value in *.
    destruct s; [discriminate Lo | discriminate Hi].
  - exfalso. unfold dle in Hi. rewrite MAX_FREQ_value in Hi. discriminate Hi.
  - destruct (ppm_in_range s m e V Lo Hi) as [Hm [He Hr]].
    destruct (ppm_magnitude m e Hm Hr) as [Pp Pb].
    destruct (scaled_product s m e Hm ltac:(lia))
      as [m1A [eA [Hm1A [RA [HeA HA]]]]].
    unfold ppm_to_freq.
    destruct RA as [[_ ->]|[mR [eR [-> _]]]].
    + cbn [double_to_int64]. intros H. injection H as <-. split; intros _; lia.
    + cbn [double_to_int64].
      destruct (in_int64 _); [|discriminate]. intros H. injection H as <-.
      assert (T : 0 <= trunc_magnitude mR eR)
        by (destruct (trunc_magnitude_spec mR eR) as [T _]; exact T).
      cbn [to_Q]. set (p := (inject_Z (Zpos m) * pow2 e)%Q) in *.
      destruct s; cbn [negb cond_Zopp signedQ]; split; intros H;
        try lia; exfalso; clearbody p; lra.
Qed.

(** [1.0 / hz] for a clock rate that fits an int. *)
Lemma tick_value (h : Z) :
  1 <= h < 2 ^ 31 ->
  exists m1 e',
    0 <= m1 <= 2 ^ prec /\
    rounds_to (ddiv (int64_to_double 1) (int64_to_double h)) false m1 e' /\
    e' <= -52 /\
    (- (pow2 e' * inject_Z h)
     <= 2 * (inject_Z m1 * pow2 e' * inject_Z h - 1)
     <= pow2 e' * inject_Z h)%Q.
Proof.
  intros Hh. destruct h as [|p|p]; try lia.
  unfold int64_to_double at 2. cbn [binary_normalize].
  destruct (binary_round_exact false p (Zpos p) 0)
    as [mY [eY [-> HY]]]; try lia.
  { unfold prec. lia. }
  assert (E1 : int64_to_double 1 = S754_finite false 4503599627370496 (-52))
    by (vm_compute; reflexivity).
  rewrite E1.
  assert (X1 : (inject_Z (Zpos 4503599627370496) * pow2 (-52) == 1)%Q)
    by (vm_compute; reflexivity).
  destruct (ddiv_value false 4503599627370496 (-52) false mY eY 1)
    as [m1 [e' [Hm1 [R [He H]]]]].
  { rewrite X1, HY. change (pow2 1) with 2%Q.
    assert (1 <= inject_Z (Zpos p))%Q
      by (change 1%Q with (inject_Z 1); rewrite <- Zle_Qle; lia).
    lra. }
  { lia. }
  rewrite fexp_eq in He. rewrite X1, HY in H.
  exists m1, e'. split; [exact Hm1|]. split; [exact R|]. split; [lia|exact H].
Qed.

Section FrequencyAccuracy.

Context {W : Type} {P : Platform W}.

(** X8: What set_frequency hands to the kernel for a ppm within the bound the
    caller keeps: the conversion to int64 is defined, so the call starts
    with one adjfreq set, and the value set is [-ppm * 1000 * 2^32] up to
    the rounding of the product to double and the truncation -- within 33
    units -- with the sign opposite to the ppm's. *)
Theorem set_frequency_kernel_value (freq_ppm : double) (s : state W) :
  is_binary64 freq_ppm = true ->
  dle (dneg MAX_FREQ) freq_ppm = true ->
  dle freq_ppm MAX_FREQ = true ->
  exists k,
    in_int64 k = true /\
    (Qabs (inject_Z k + to_Q freq_ppm * SQ) <= 33)%Q /\
    ((0 <= to_Q freq_ppm)%Q -> k <= 0) /\
    ((to_Q freq_ppm <= 0)%Q -> 0 <= k) /\
    set_frequency freq_ppm s =
    let '(r, old, w') := PRV_AdjustFreq (Some k) false (world s) in
    let s1 := Build_state (last_rtc_sync s)
                (trace s ++ [AdjustFreq (Some k) false r old]) w' in
    if r =? 0 then read_frequency s1
    else
      Exited (Build_state (last_rtc_sync s)
                (trace s1 ++ [Log LOGS_FATAL "adjfreq() failed"]) w').
Proof.
  intros V Lo Hi.
  destruct (ppm_to_freq_close freq_ppm V Lo Hi) as [k [Hk Hc]].
  destruct (ppm_to_freq_sign freq_ppm k V Lo Hi Hk) as [S1 S2].
  exists k. split; [exact (double_to_int64_range _ _ Hk)|].
  repeat (split; [assumption|]).
  rewrite set_frequency_unfold, Hk. reflexivity.
Qed.

(** X9: What read_frequency returns for the value the kernel reports: for
    INT64_MIN the negation overflows and the behaviour is undefined; for
    every other value [k] the call returns, after its one adjfreq get, a
    ppm that is a zero or a finite double (never a NaN or an infinity),
    within 2^-30 of [-k / (1000 * 2^32)], whose sign is opposite to
    [k]'s. *)
Theorem read_frequency_kernel_value (s : state W) (k : Z) (w' : W) :
  PRV_AdjustFreq None true (world s) = (0, k, w') ->
  in_int64 k = true ->
  (k = INT64_MIN -> read_frequency s = Undefined) /\
  (k <> INT64_MIN ->
   exists ppm,
     read_frequency s =
     Done ppm (Build_state (last_rtc_sync s)
                 (trace s ++ [AdjustFreq None true 0 k]) w') /\
     is_finite ppm = true /\
     (Qabs (to_Q ppm * SQ + inject_Z k) <= 2512)%Q /\
     (0 <= k -> (to_Q ppm <= 0)%Q) /\ (k <= 0 -> (0 <= to_Q ppm)%Q)).
Proof.
  intros H Hin. rewrite read_frequency_unfold, H. cbn [Z.eqb].
  split.
  - intros ->. reflexivity.
  - intros Hk. destruct (freq_to_ppm_close k Hin Hk) as [r [-> R]].
    exists r. split; [reflexivity | exact R].
Qed.

(** X7: The tick interval the driver registers: for a clock rate [hz] from 1
    to INT_MAX it is a positive double within 2^-53 s of [1 / hz]; for
    [hz = 0] the division gives +infinity. *)
Theorem tick_interval_accuracy (cinfo : clockinfo) :
  (hz cinfo = 0 ->
   max_set_freq_delay (openbsd_driver cinfo) = S754_infinity false) /\
  (1 <= hz cinfo < 2 ^ 31 ->
   let d := max_set_freq_delay (openbsd_driver (W:=W) cinfo) in
   (0 < to_Q d)%Q /\
   (Qabs (to_Q d * inject_Z (hz cinfo) - 1)
    <= inject_Z (hz cinfo) * (1 # 9007199254740992))%Q).
Proof.
  cbn [max_set_freq_delay openbsd_driver]. split.
  - intros ->. vm_compute. reflexivity.
  - intros Hh. cbv zeta.
    destruct (tick_value (hz cinfo) Hh) as [m1 [e' [Hm1 [R [He H]]]]].
    set (h := hz cinfo) in *.
    assert (Hq : (1 <= inject_Z h)%Q)
      by (change 1%Q with (inject_Z 1); rewrite <- Zle_Qle; lia).
    assert (Hq2 : (inject_Z h < 2147483648 # 1)%Q).
    { change (2147483648 # 1)%Q with (inject_Z (2 ^ 31)).
      rewrite <- Zlt_Qlt. lia. }
    pose proof (pow2_le e' (-52) He) as G.
    change (pow2 (-52)) with (1 # 4503599627370496)%Q in G.
    pose proof (pow2_pos e') as Pe.
    pose proof (rounds_to_value _ _ _ _ R) as V. cbn [signedQ] in V.
    set (v := to_Q (ddiv (int64_to_double 1) (int64_to_double h))) in *.
    set (pe := pow2 e') in *.
    assert (Gh : (pe * inject_Z h <= (1 # 4503599627370496) * inject_Z h)%Q)
      by (apply Qmult_le_compat_r; lra).
    assert (T : (v * inject_Z h == inject_Z m1 * pe * inject_Z h)%Q)
      by (rewrite V; ring).
    set (t := (inject_Z m1 * pe * inject_Z h)%Q) in *.
    set (g := (pe * inject_Z h)%Q) in *.
    set (q := inject_Z h) in *.
    clearbody v pe t g q. clear - Hq Hq2 Gh T H.
    split.
    + destruct (Qlt_le_dec 0 v) as [|Neg]; [assumption|exfalso].
      assert (v * q <= 0)%Q.
      { setoid_replace (v * q)%Q with (- ((- v) * q))%Q by ring.
        assert (0 <= (- v) * q)%Q by (apply Qmult_le_0_compat; lra). lra. }
      lra.
    + apply Qabs_Qle_condition. split; lra.
Qed.

End FrequencyAccuracy.

Lemma set_frequency_kernel_value_witness :
  let ppm := S754_finite false 6755399441055765 (-36) in
  exists k,
    in_int64 k = true /\
    (Qabs (inject_Z k + to_Q ppm * SQ) <= 33)%Q /\
    k <= 0.
Proof.
  intros ppm.
  assert (V : is_binary64 ppm = true) by (vm_compute; reflexivity).
  assert (Lo : dle (dneg MAX_FREQ) ppm = true) by (vm_compute; reflexivity).
  assert (Hi : dle ppm MAX_FREQ = true) by (vm_compute; reflexivity).
  destruct (set_frequency_kernel_value ppm (Sim.start (Sim.seconds 0) Sim.boot)
              V Lo Hi) as [k [A [B [S1 _]]]].
  exists k. split; [exact A|]. split; [exact B|].
  apply S1. vm_compute. discriminate.
Defined.

Lemma read_frequency_kernel_value_witness :
  let m := snd (Sim.adjust_freq (Some (- 422212465065985344)) false Sim.boot) in
  let s := Sim.start (Sim.seconds 0) m in
  exists ppm,
    read_frequency s =
    Done ppm (Build_state (Sim.seconds 0)
                [AdjustFreq None true 0 (- 422212465065985344)] m) /\
    is_finite ppm = true /\
    (Qabs (to_Q ppm * SQ + inject_Z (- 422212465065985344)) <= 2512)%Q.
Proof.
  intros m s.
  assert (H : PRV_AdjustFreq None true (world s)
              = (0, - 422212465065985344, m)) by (vm_compute; reflexivity).
  assert (Hin : in_int64 (- 422212465065985344) = true)
    by (vm_compute; reflexivity).
  destruct (read_frequency_kernel_value s _ m H Hin) as [_ R].
  destruct R as [ppm [E [F [B _]]]]; [unfold INT64_MIN; lia|].
  exists ppm. split; [exact E|]. split; [exact F | exact B].
Defined.

(** ** The resynchroniser over the override, and the filter as a whole *)

Section Composition.

Context {W : Type} {P : Platform W}.

(** What the resynchroniser does, step by step. *)
Lemma synchronise_rtc_unfold (s : state W) :
  synchronise_rtc s =
  let '(ts, w1) := LCL_ReadRawTime (world s) in
  let '(r, w2) := PRV_SetTime CLOCK_REALTIME ts w1 in
  if r <? 0 then
    Done tt (Build_state (last_rtc_sync s)
               (trace s ++ [SetTime CLOCK_REALTIME ts r;
                            Log LOGS_DEBUG "clock_settime() failed"]) w2)
  else
    let '(new_ts, w3) := LCL_ReadRawTime w2 in
    let d := fabs (UTI_DiffTimespecsToDouble new_ts ts) in
    Done tt (Build_state (last_rtc_sync s)
               (trace s ++ [SetTime CLOCK_REALTIME ts r; DispersionNotify d])
               (lcl_InvokeDispersionNotifyHandlers d w3)).
Proof.
  unfold synchronise_rtc, do_SetTime, do_DispersionNotify, DEBUG_LOG, LOG,
    bind, call, emit, ret; simpl.
  destruct (LCL_ReadRawTime (world s)) as [ts w1]; simpl.
  destruct (PRV_SetTime CLOCK_REALTIME ts w1) as [r w2]; simpl.
  destruct (r <? 0); simpl.
  - rewrite <- ?app_assoc. reflexivity.
  - destruct (LCL_ReadRawTime w2) as [new_ts w3]; simpl.
    rewrite <- ?app_assoc. reflexivity.
Qed.

(** The override seen from its caller: for CLOCK_REALTIME it is
    settimeofday() on the converted time. *)
Lemma override_set_time_realtime (ts : timespec) (w : W) :
  override_set_time CLOCK_REALTIME ts w
  = settimeofday (UTI_TimespecToTimeval ts) w.
Proof.
  unfold override_set_time, clock_settime, do_settimeofday, bind, call, emit, ret.
  cbn [Z.eqb CLOCK_REALTIME negb world trace last_rtc_sync].
  destruct (settimeofday (UTI_TimespecToTimeval ts) w) as [r w'].
  reflexivity.
Qed.

(** X4: The resynchroniser over the override: when PRV_SetTime() reaches the
    clock through this file's clock_settime(), synchronise_rtc sets the
    time of day to the raw time it has just read, converted to a timeval;
    it never takes the override's wrong-clock exit, so the attempt
    fails exactly when settimeofday() does, and only an attempt that
    went through reads the raw clock again and notifies a dispersion. *)
Theorem synchronise_rtc_through_override (s : state W) :
  (forall ts w,
      PRV_SetTime CLOCK_REALTIME ts w = override_set_time CLOCK_REALTIME ts w) ->
  let '(ts, w1) := LCL_ReadRawTime (world s) in
  let '(r, w2) := settimeofday (UTI_TimespecToTimeval ts) w1 in
  if r <? 0 then
    synchronise_rtc s =
    Done tt (Build_state (last_rtc_sync s)
               (trace s ++ [SetTime CLOCK_REALTIME ts r;
                            Log LOGS_DEBUG "clock_settime() failed"]) w2)
  else
    let '(new_ts, w3) := LCL_ReadRawTime w2 in
    let d := fabs (UTI_DiffTimespecsToDouble new_ts ts) in
    synchronise_rtc s =
    Done tt (Build_state (last_rtc_sync s)
               (trace s ++ [SetTime CLOCK_REALTIME ts r; DispersionNotify d])
               (lcl_InvokeDispersionNotifyHandlers d w3)).
Proof.
  intros H. rewrite synchronise_rtc_unfold.
  destruct (LCL_ReadRawTime (world s)) as [ts w1].
  rewrite H, override_set_time_realtime.
  destruct (settimeofday (UTI_TimespecToTimeval ts) w1) as [r w2].
  destruct (r <? 0); [reflexivity|].
  destruct (LCL_ReadRawTime w2) as [new_ts w3]. reflexivity.
Qed.

(** X11: The filter fails closed, in every role and at every level: the call
    returns only with the promises of its branch in force; when it ends
    the process instead, the last thing it did was to log a fatal
    message, and the promises in force are those from before the call;
    its behaviour is never undefined. *)
Theorem filter_fails_closed
  (level : Z) (context : SYS_ProcessContext) (s : state W) :
  match SYS_OpenBSD_EnableSystemCallFilter level context s with
  | Done _ s' =>
      installed_promises (trace s')
      = Some (filter_promises context (nts_pool (world s)) (is_root (world s)))
  | Exited s' =>
      installed_promises (trace s') = installed_promises (trace s) /\
      exists before msg, trace s' = before ++ [Log LOGS_FATAL msg]
  | Undefined => False
  end.
Proof.
  rewrite filter_unfold.
  destruct (negb (level =? 1) && SYS_ProcessContext_eqb context SYS_MAIN_PROCESS).
  - cbn [trace]. split.
    + rewrite installed_promises_app. reflexivity.
    + eexists _, _. reflexivity.
  - cbv zeta. destruct (pledge _ (world s)) as [r w'].
    destruct (r <? 0) eqn:R; cbn [trace].
    + split.
      * rewrite installed_promises_app. cbn [installed_promises]. now rewrite R.
      * exists (trace s ++ [Pledge (filter_promises context (nts_pool (world s))
                                    (is_root (world s))) r]), "pledge() failed"%string.
        rewrite <- app_assoc. reflexivity.
    + rewrite installed_promises_app. cbn [installed_promises]. now rewrite R.
Qed.

End Composition.

Lemma synchronise_rtc_through_override_witness :
  let m := Sim.at_time (Sim.seconds 3600) 0 Sim.boot in
  synchronise_rtc (Sim.start (Sim.seconds 0) m) =
  Done tt (Build_state (Sim.seconds 0)
             [SetTime CLOCK_REALTIME (Sim.seconds 3600) 0;
              DispersionNotify (S754_zero false)]
             (Sim.with_ktime {| tvl_sec := 3600; tv_usec := 0 |} m)).
Proof.
  intros m.
  assert (O : forall ts w,
             PRV_SetTime CLOCK_REALTIME ts w
             = override_set_time CLOCK_REALTIME ts w).
  { intros ts w. rewrite override_set_time_realtime.
    unfold PRV_SetTime, settimeofday. cbn [Sim.platform].
    unfold Sim.set_time, Sim.set_time_of_day.
    destruct (Sim.settime_ret w <? 0); reflexivity. }
  pose proof (synchronise_rtc_through_override (Sim.start (Sim.seconds 0) m) O)
    as X.
  vm_compute in X. vm_compute. exact X.
Defined.
